(** * cells/text_analyzer.py: a shallow embedding of [TextAnalyzer]

    The analyzer strips configured phrases from a text, sends the rest to the
    TexSmart segmentation service, and turns the answer into a term-frequency
    report or a sentiment report.  Python values are modelled as the code
    handles them: a [str] is its sequence of code points, a decoded JSON
    answer is a tree of dicts, lists and scalars, a raised exception is a
    [Raise], and the class attribute [LOADED_DICTIONARIES] together with the
    YAML file of unrecognized words forms the state threaded through the
    methods. *)

From Stdlib Require Import ZArith NArith String Ascii.
From stdpp Require Import gmap list sorting.

Local Open Scope Z_scope.
Set Warnings "-register-all,-clear-no-such-hyp".


(** ** Strings *)

(** A Python [str] is a sequence of Unicode code points. *)
Abbreviation str := (list N) (only parsing).

(** ASCII literals of the source, as code points. *)
Definition lit (s : string) : str := N_of_ascii <$> list_ascii_of_string s.
Global Arguments lit : simpl never.

(** [s.startswith(p)] *)
Fixpoint starts_with (p s : str) : bool :=
  match p, s with
  | [], _ => true
  | _ :: _, [] => false
  | a :: p', b :: s' => N.eqb a b && starts_with p' s'
  end.

(** [needle in hay] on two strings: a literal substring test. *)
Fixpoint contains (needle hay : str) : bool :=
  starts_with needle hay ||
  match hay with
  | [] => false
  | _ :: hay' => contains needle hay'
  end.

(** The left-to-right scan of [str.replace] for a non-empty [old]: at a match
    [new] is emitted and the [length old] matched code points are skipped
    ([skip] counts those still to drop), so matches never overlap. *)
Fixpoint replace_scan (old new text : str) (skip : nat) : str :=
  match text with
  | [] => []
  | c :: rest =>
      match skip with
      | S k => replace_scan old new rest k
      | O =>
          if starts_with old text
          then new ++ replace_scan old new rest (pred (length old))
          else c :: replace_scan old new rest O
      end
  end.

(** [text.replace(old, new)]; an empty [old] matches between all code points. *)
Definition str_replace (text old new : str) : str :=
  match old with
  | [] => new ++ flat_map (λ c, c :: new) text
  | _ :: _ => replace_scan old new text O
  end.

(** Python compares strings lexicographically by code point. *)
Fixpoint str_leb (a b : str) : bool :=
  match a, b with
  | [], _ => true
  | _ :: _, [] => false
  | x :: a', y :: b' => N.ltb x y || (N.eqb x y && str_leb a' b')
  end.

Definition str_le (a b : str) : Prop := str_leb a b = true.

Global Instance str_le_dec a b : Decision (str_le a b).
Proof. unfold str_le. apply _. Defined.

(** [sorted(xs)] on a list of strings. *)
Definition sorted (xs : list str) : list str := merge_sort str_le xs.

(** [sorted(set(xs))]: the set forgets order and multiplicity, [sorted] lists
    its elements in increasing order. *)
Definition sorted_set (xs : list str) : list str :=
  sorted (elements (list_to_set xs : gset str)).

(** ** The Unicode character classes of [re]

    For a [str] pattern [\w] is [ch.isalnum() or ch == '_'] and [\d] is
    [ch.isdecimal()].  Below 128 both are fixed ranges; above, they are read
    from the Unicode database, which is taken as a parameter. *)
Record UnicodeData := {
  uni_isalnum : N → bool;
  uni_isdecimal : N → bool
}.

Definition in_range (lo hi c : N) : bool := N.leb lo c && N.leb c hi.

Definition isdecimal (U : UnicodeData) (c : N) : bool :=
  if N.ltb c 128 then in_range 48 57 c else uni_isdecimal U c.

Definition isalnum (U : UnicodeData) (c : N) : bool :=
  if N.ltb c 128
  then in_range 48 57 c || in_range 65 90 c || in_range 97 122 c
  else uni_isalnum U c.

(** [\w] *)
Definition is_word (U : UnicodeData) (c : N) : bool :=
  isalnum U c || N.eqb c 95.

(** ** Exceptions and decoded JSON *)

Inductive exn :=
| AttributeError
| KeyError
| TypeError
| ConfigError.

Inductive result (A : Type) :=
| Ok (a : A)
| Raise (e : exn).
Arguments Ok {A} a.
Arguments Raise {A} e.

Global Instance result_ret : MRet result := λ A a, Ok a.
Global Instance result_bind : MBind result := λ A B f m,
  match m with
  | Ok a => f a
  | Raise e => Raise e
  end.

(** What [r.json()] can return.  The analyzer never looks inside a number. *)
Inductive json :=
| JNull
| JBool (b : bool)
| JNum (z : Z)
| JStr (s : str)
| JList (l : list json)
| JDict (kvs : list (str * json)).

(** A dict is kept as its items in insertion order, keys distinct. *)
Fixpoint assoc (k : str) (kvs : list (str * json)) : option json :=
  match kvs with
  | [] => None
  | (k', v) :: kvs' => if decide (k = k') then Some v else assoc k kvs'
  end.

(** [x.get(k, d)]: only a dict has the method. *)
Definition py_get (x : json) (k : str) (d : json) : result json :=
  match x with
  | JDict kvs => Ok (default d (assoc k kvs))
  | _ => Raise AttributeError
  end.

(** [x[k]] with a string key. *)
Definition py_getitem (x : json) (k : str) : result json :=
  match x with
  | JDict kvs =>
      match assoc k kvs with
      | Some v => Ok v
      | None => Raise KeyError
      end
  | _ => Raise TypeError
  end.

(** [for v in x]: a list yields its items, a dict its keys, a string its
    characters; the other values are not iterable. *)
Definition py_iter (x : json) : result (list json) :=
  match x with
  | JList l => Ok l
  | JDict kvs => Ok (JStr ∘ fst <$> kvs)
  | JStr s => Ok ((λ c, JStr [c]) <$> s)
  | _ => Raise TypeError
  end.

(** A loop whose body may raise: the first exception ends it. *)
Fixpoint for_each {A B} (f : A → result B) (l : list A) : result (list B) :=
  match l with
  | [] => Ok []
  | x :: l' => y ← f x; ys ← for_each f l'; Ok (y :: ys)
  end.

(** ** The segmentation client *)

(** The outcome of [requests.post(url, data=req_str)] followed by [r.json()]. *)
Inductive post_result :=
| Responded (body : json)
| RequestException
| JSONDecodeError
| OtherException.

(** The collaborators outside the class: [ConfigManager.load_config] for a
    dictionary file ([None] when it raises) and the TexSmart endpoint. *)
Record Host := {
  load_config : str → option (gmap str (list str));
  post : str → post_result
}.

Record word_entry := { w_str : json; w_tag : json }.
Record entity_entry := {
  e_str : json; e_tag : json; e_i18n : json; e_related : json
}.
Record parsed := {
  word_list : list word_entry;
  phrase_list : list word_entry;
  entity_list : list entity_entry
}.

Definition _call_texsmart_api (H : Host) (text : str) : json :=
  match post H text with
  | Responded body => body
  | RequestException => JDict [(lit "error", JStr (lit "Request failed"))]
  | JSONDecodeError => JDict [(lit "error", JStr (lit "JSON decode failed"))]
  | OtherException =>
      JDict [(lit "error", JStr (lit "An unexpected error occurred"))]
  end.

(** [{"str": word["str"], "tag": word["tag"]}] *)
Definition parse_word (word : json) : result word_entry :=
  s ← py_getitem word (lit "str");
  t ← py_getitem word (lit "tag");
  Ok {| w_str := s; w_tag := t |}.

Definition parse_entity (entity : json) : result entity_entry :=
  entity_meaning ← py_get entity (lit "meaning") (JDict []);
  s ← py_getitem entity (lit "str");
  t ← py_getitem entity (lit "tag");
  ty ← py_getitem entity (lit "type");
  i ← py_get ty (lit "i18n") (JStr []);
  r ← py_get entity_meaning (lit "related") (JList []);
  Ok {| e_str := s; e_tag := t; e_i18n := i; e_related := r |}.

Definition _parse_texsmart_response (response : json) : result parsed :=
  wl ← py_get response (lit "word_list") (JList []);
  ws ← py_iter wl;
  words ← for_each parse_word ws;
  pl ← py_get response (lit "phrase_list") (JList []);
  ps ← py_iter pl;
  phrases ← for_each parse_word ps;
  el ← py_get response (lit "entity_list") (JList []);
  es ← py_iter el;
  entities ← for_each parse_entity es;
  Ok {| word_list := words; phrase_list := phrases; entity_list := entities |}.

(** ** Token filters *)

(** [punct_pattern.search(word)] for [[^\w]] on a string: the pattern is
    found when some code point is not a word character. *)
Definition punct_search (U : UnicodeData) (word : str) : bool :=
  existsb (λ c, negb (is_word U c)) word.

(** [[word for word in words if not punct_pattern.search(word)]]; searching
    anything but a string raises [TypeError]. *)
Fixpoint _remove_punctuation (U : UnicodeData) (words : list json)
  : result (list str) :=
  match words with
  | [] => Ok []
  | JStr word :: words' =>
      rest ← _remove_punctuation U words';
      Ok (if punct_search U word then rest else word :: rest)
  | _ :: _ => Raise TypeError
  end.

(** The entries of [unwanted_patterns]: [^\d+$] and [\d+] followed by a
    unit character. *)
Inductive pattern :=
| AllDigits
| DigitsThen (unit : N).

Definition unwanted_patterns : list pattern :=
  [AllDigits; DigitsThen 24180; DigitsThen 26376; DigitsThen 26085;
   DigitsThen 20998]%N.

(** [\d+] covering the whole of [s]. *)
Definition all_digits (U : UnicodeData) (s : str) : bool :=
  match s with
  | [] => false
  | _ :: _ => forallb (isdecimal U) s
  end.

(** Without [re.MULTILINE], [$] matches at the end of the string and just
    before a newline that ends it. *)
Definition strip_final_newline (s : str) : option str :=
  match reverse s with
  | 10%N :: r => Some (reverse r)
  | _ => None
  end.

(** A decimal digit directly followed by [unit] somewhere in [s]. *)
Fixpoint digit_then (U : UnicodeData) (unit : N) (s : str) : bool :=
  match s with
  | [] => false
  | c :: s' =>
      match s' with
      | [] => false
      | c' :: _ => (isdecimal U c && N.eqb c' unit) || digit_then U unit s'
      end
  end.

(** [re.search(pattern, item)] as a truth value. *)
Definition re_search (U : UnicodeData) (p : pattern) (item : str) : bool :=
  match p with
  | AllDigits =>
      all_digits U item ||
      match strip_final_newline item with
      | Some ds => all_digits U ds
      | None => false
      end
  | DigitsThen unit => digit_then U unit item
  end.

Definition is_unwanted (U : UnicodeData) (item : str) : bool :=
  existsb (λ p, re_search U p item) unwanted_patterns.

Definition _remove_unless_words (U : UnicodeData) (items : list str)
  : list str :=
  filter (λ item, Is_true (Nat.ltb 1 (length item) && negb (is_unwanted U item)))
         items.

(** [Counter(words)]: every occurrence adds one to the count of its word. *)
Definition Counter (words : list str) : gmap str Z :=
  foldl (λ c w, <[w := default 0 (c !! w) + 1]> c) ∅ words.

(** [result_dict] of [sentiment]; the key [word_num] is absent until the
    tokens have been classified. *)
Record result_dict := {
  positive_num : Z;
  negative_num : Z;
  word_num : option Z
}.

(** [output] of [sentiment]: the three buckets. *)
Record output := {
  positive : list str;
  negative : list str;
  unrecognized : list str
}.

(** ** State: the dictionary cache and the file of unrecognized words *)

Record world := {
  LOADED_DICTIONARIES : gmap str (gmap str (list str));
  (** [data/plugins/waifu5/config/unrecognized_words.yaml]: [None] when the
      file does not exist, else the mapping [yaml.safe_load] gives (an empty
      document counts as the empty mapping, both are falsy). *)
  unrecognized_words_yaml : option (gmap str (list str));
  (** Every call of [config.load_config], newest first (bookkeeping only). *)
  config_reads : list str
}.

(** A method: it runs on a state, changes it, and returns or raises. *)
Definition M (A : Type) : Type := world → result A * world.

Definition ret {A} (a : A) : M A := λ w, (Ok a, w).

Definition bind {A B} (m : M A) (f : A → M B) : M B := λ w,
  match m w with
  | (Ok a, w') => f a w'
  | (Raise e, w') => (Raise e, w')
  end.

(** A computation without effects, run inside a method. *)
Definition lift {A} (r : result A) : M A := λ w, (r, w).

Notation "'let*' x := m 'in' k" := (bind m (λ x, k))
  (at level 10, x name, m at level 100, k at level 200,
   format "'[v' 'let*'  x  :=  m  'in' '/' k ']'").

Section TextAnalyzer.
Variable U : UnicodeData.
Variable H : Host.

(** [await config.load_config(completion=False)] on the user file and the
    template of [file]; the call is recorded. *)
Definition ConfigManager_load (file : str) : M (gmap str (list str)) := λ w,
  let w' := {| LOADED_DICTIONARIES := LOADED_DICTIONARIES w;
               unrecognized_words_yaml := unrecognized_words_yaml w;
               config_reads := file :: config_reads w |} in
  match load_config H file with
  | Some data => (Ok data, w')
  | None => (Raise ConfigError, w')
  end.

Definition cache_store (file : str) (data : gmap str (list str)) : M () :=
  λ w,
  (Ok (), {| LOADED_DICTIONARIES := <[file := data]> (LOADED_DICTIONARIES w);
             unrecognized_words_yaml := unrecognized_words_yaml w;
             config_reads := config_reads w |}).

Definition _load_yaml_dict (file : str) : M (gmap str (list str)) := λ w,
  match LOADED_DICTIONARIES w !! file with
  | Some data => (Ok data, w)
  | None =>
      (let* data := ConfigManager_load file in
       let* _ := cache_store file data in
       ret data) w
  end.

(** [for word in meaningless: text = text.replace(word, "")] *)
Definition strip_all (meaningless : list str) (text : str) : str :=
  foldl (λ text word, str_replace text word []) text meaningless.

Definition _remove_meaningless (text : str) : M str :=
  let* meaningless_dict := _load_yaml_dict (lit "meaningless") in
  let meaningless := default [] (meaningless_dict !! lit "meaningless") in
  ret (strip_all meaningless text).

(** The loop over [parsed_data["entity_list"]] of [term_freq]. *)
Fixpoint collect_entities (entities : list entity_entry)
    (i18n_list related_list : list json) : result (list json * list json) :=
  match entities with
  | [] => Ok (i18n_list, related_list)
  | entity :: entities' =>
      related ← py_iter (e_related entity);
      collect_entities entities' (i18n_list ++ [e_i18n entity])
                       (related_list ++ related)
  end.

Definition term_freq (text : str)
  : M (gmap str Z * list str * list str) :=
  let* text := _remove_meaningless text in
  let response := _call_texsmart_api H text in
  let* parsed_data := lift (_parse_texsmart_response response) in
  let words := w_str <$> word_list parsed_data in
  let* lists := lift (collect_entities (entity_list parsed_data) [] []) in
  let '(i18n_list, related_list) := lists in
  let* words := lift (_remove_punctuation U words) in
  let words := _remove_unless_words U words in
  let* i18n_list := lift (_remove_punctuation U i18n_list) in
  let* related_list := lift (_remove_punctuation U related_list) in
  let words := sorted_set words in
  let i18n_list := sorted_set i18n_list in
  let related_list := sorted_set related_list in
  let term_freq_counter := Counter words in
  ret (term_freq_counter, i18n_list, related_list).

(** The body of [for word in words] in [sentiment]. *)
Definition classify_word (positive_list negative_list : list str)
    (acc : result_dict * output) (word : str) : result_dict * output :=
  let '(rd, out) := acc in
  if bool_decide (word ∈ positive_list) then
    ({| positive_num := positive_num rd + 1;
        negative_num := negative_num rd;
        word_num := word_num rd |},
     {| positive := positive out ++ [word];
        negative := negative out;
        unrecognized := unrecognized out |})
  else if existsb (λ neg_word, contains neg_word word) negative_list then
    ({| positive_num := positive_num rd;
        negative_num := negative_num rd + 1;
        word_num := word_num rd |},
     {| positive := positive out;
        negative := negative out ++ [word];
        unrecognized := unrecognized out |})
  else
    (rd,
     {| positive := positive out;
        negative := negative out;
        unrecognized := unrecognized out ++ [word] |}).

(** The loop, then [output["unrecognized"] = sorted(set(...))]. *)
Definition classify (positive_list negative_list words : list str)
  : result_dict * output :=
  let '(rd, out) :=
    foldl (classify_word positive_list negative_list)
          ({| positive_num := 0; negative_num := 0; word_num := None |},
           {| positive := []; negative := []; unrecognized := [] |})
          words in
  (rd, {| positive := positive out;
          negative := negative out;
          unrecognized := sorted_set (unrecognized out) |}).

(** The words already in the YAML file: none when the file is missing, when
    the document is falsy (an empty mapping has no key either) or when it
    lacks the key. *)
Definition existing_words (w : world) : list str :=
  match unrecognized_words_yaml w with
  | Some data => default [] (data !! lit "unrecognized")
  | None => []
  end.

Definition _save_unrecognized_words (words : list str) : M () := λ w,
  let combined_words := sorted_set (existing_words w ++ words) in
  (Ok (), {| LOADED_DICTIONARIES := LOADED_DICTIONARIES w;
             unrecognized_words_yaml :=
               Some {[ lit "unrecognized" := combined_words ]};
             config_reads := config_reads w |}).

(** The [print] of the three buckets leaves no trace in the state. *)
Definition sentiment (text : str) : M result_dict :=
  let* text := _remove_meaningless text in
  let* positive_dict := _load_yaml_dict (lit "positive") in
  let positive_list := default [] (positive_dict !! lit "positive") in
  let* negative_dict := _load_yaml_dict (lit "negative") in
  let negative_list := default [] (negative_dict !! lit "negative") in
  let response := _call_texsmart_api H text in
  let* parsed_data := lift (_parse_texsmart_response response) in
  let words := w_str <$> phrase_list parsed_data in
  let* words := lift (_remove_punctuation U words) in
  let word_num_ := Z.of_nat (length words) in
  let '(rd, out) := classify positive_list negative_list words in
  let rd := {| positive_num := positive_num rd;
               negative_num := negative_num rd;
               word_num := Some word_num_ |} in
  let* _ := _save_unrecognized_words (unrecognized out) in
  ret rd.

End TextAnalyzer.

(** * Auxiliary definitions for the statements *)

(** What a load of [file] gives in state [w]: the cached data when there is
    some, else what the configuration source gives. *)
Definition dictionary (H : Host) (w : world) (file : str)
  : option (gmap str (list str)) :=
  match LOADED_DICTIONARIES w !! file with
  | Some data => Some data
  | None => load_config H file
  end.

(** The list under the key named like the file, [[]] when the key is absent. *)
Definition entries (name : string) (d : gmap str (list str)) : list str :=
  default [] (d !! lit name).

(** The text sent to the service: the input without the meaningless phrases. *)
Definition request_text (dm : gmap str (list str)) (text : str) : str :=
  strip_all (entries "meaningless" dm) text.

(** The pure part of [term_freq], from the decoded response on. *)
Definition analyse (U : UnicodeData) (response : json)
  : result (gmap str Z * list str * list str) :=
  parsed_data ← _parse_texsmart_response response;
  lists ← collect_entities (entity_list parsed_data) [] [];
  words ← _remove_punctuation U (w_str <$> word_list parsed_data);
  i18n_list ← _remove_punctuation U lists.1;
  related_list ← _remove_punctuation U lists.2;
  Ok (Counter (sorted_set (_remove_unless_words U words)),
      sorted_set i18n_list, sorted_set related_list).

(** The tokens [sentiment] classifies: the phrase strings that pass the
    punctuation filter. *)
Definition phrase_tokens (U : UnicodeData) (response : json)
  : result (list str) :=
  parsed_data ← _parse_texsmart_response response;
  _remove_punctuation U (w_str <$> phrase_list parsed_data).

(** The report [sentiment] returns for the surviving tokens [words]. *)
Definition report (positive_list negative_list words : list str)
  : result_dict :=
  let rd := (classify positive_list negative_list words).1 in
  {| positive_num := positive_num rd;
     negative_num := negative_num rd;
     word_num := Some (Z.of_nat (length words)) |}.

(** What [sentiment] returns, read off the dictionaries a load gives in [w]. *)
Definition sentiment_value (U : UnicodeData) (H : Host) (text : str)
    (w : world) : result result_dict :=
  match dictionary H w (lit "meaningless") with
  | None => Raise ConfigError
  | Some dm =>
      match dictionary H w (lit "positive") with
      | None => Raise ConfigError
      | Some dp =>
          match dictionary H w (lit "negative") with
          | None => Raise ConfigError
          | Some dn =>
              words ← phrase_tokens U
                        (_call_texsmart_api H (request_text dm text));
              Ok (report (entries "positive" dp) (entries "negative" dn) words)
          end
      end
  end.

(** The three classes of a token, in the words of the specification. *)
Definition substring (needle hay : str) : Prop :=
  ∃ a b, hay = a ++ needle ++ b.

Definition counts_positive (positive_list : list str) (token : str) : Prop :=
  token ∈ positive_list.

Definition counts_negative (positive_list negative_list : list str)
    (token : str) : Prop :=
  (token ∉ positive_list) ∧
  Exists (λ entry, substring entry token) negative_list.

Definition counts_unrecognized (positive_list negative_list : list str)
    (token : str) : Prop :=
  (token ∉ positive_list) ∧
  ¬ Exists (λ entry, substring entry token) negative_list.

(** The call to the service did not produce a decoded answer. *)
Definition failed (o : post_result) : Prop :=
  match o with
  | Responded _ => False
  | RequestException | JSONDecodeError | OtherException => True
  end.

(** No non-empty meaningless phrase occurs in [text]. *)
Definition clean (meaningless : list str) (text : str) : Prop :=
  ∀ word, word ∈ meaningless → word ≠ [] → ¬ substring word text.

(** A record of a word or phrase list with the two keys the parser indexes. *)
Definition word_ok (j : json) : Prop :=
  ∃ kvs, j = JDict kvs
    ∧ is_Some (assoc (lit "str") kvs) ∧ is_Some (assoc (lit "tag") kvs).

(** The related list of an entity: the default when "meaning" or "related"
    is missing; nothing when "meaning" is present and not an object. *)
Definition related_of (kvs : list (str * json)) : option json :=
  match assoc (lit "meaning") kvs with
  | None => Some (JList [])
  | Some (JDict meaning) => Some (default (JList []) (assoc (lit "related") meaning))
  | Some _ => None
  end.

(** An entity record with "str", "tag" and a "type" object. *)
Definition entity_ok (j : json) : Prop :=
  ∃ kvs ty, j = JDict kvs
    ∧ is_Some (assoc (lit "str") kvs) ∧ is_Some (assoc (lit "tag") kvs)
    ∧ assoc (lit "type") kvs = Some (JDict ty)
    ∧ is_Some (related_of kvs).

(** [e] is the normalized form of the word or phrase record [j]. *)
Definition word_record (j : json) (e : word_entry) : Prop :=
  ∃ kvs, j = JDict kvs
    ∧ assoc (lit "str") kvs = Some (w_str e)
    ∧ assoc (lit "tag") kvs = Some (w_tag e).

(** [e] is the normalized form of the entity record [j]: a missing "i18n"
    gives the empty label, a missing "meaning" or "related" the empty list. *)
Definition entity_record (j : json) (e : entity_entry) : Prop :=
  ∃ kvs ty, j = JDict kvs
    ∧ assoc (lit "str") kvs = Some (e_str e)
    ∧ assoc (lit "tag") kvs = Some (e_tag e)
    ∧ assoc (lit "type") kvs = Some (JDict ty)
    ∧ e_i18n e = default (JStr []) (assoc (lit "i18n") ty)
    ∧ related_of kvs = Some (e_related e).

(** The items the parser loops over for the list field [name]. *)
Definition list_field (name : string) (kvs : list (str * json))
  : result (list json) :=
  py_iter (default (JList []) (assoc (lit name) kvs)).

(** The tokens the specification excludes, in its words. *)
Definition unit_markers : list N := [24180; 26376; 26085; 20998]%N.

Definition has_non_word (U : UnicodeData) (s : str) : Prop :=
  Exists (λ c, is_word U c = false) s.

Definition single_character (s : str) : Prop := length s = 1%nat.

Definition pure_digits (U : UnicodeData) (s : str) : Prop :=
  s ≠ [] ∧ Forall (λ c, isdecimal U c = true) s.

Definition digits_and_unit (U : UnicodeData) (s : str) : Prop :=
  ∃ ds unit, s = ds ++ [unit] ∧ pure_digits U ds ∧ unit ∈ unit_markers.

Definition excluded (U : UnicodeData) (s : str) : Prop :=
  has_non_word U s ∨ single_character s ∨ pure_digits U s
  ∨ digits_and_unit U s.

(** A process is a sequence of calls into the analyzer, one after another. *)
Inductive call :=
| Load (file : str)
| TermFreq (text : str)
| Sentiment (text : str).

Definition run_call (U : UnicodeData) (H : Host) (c : call) (w : world)
  : world :=
  match c with
  | Load file => (_load_yaml_dict H file w).2
  | TermFreq text => (term_freq U H text w).2
  | Sentiment text => (sentiment U H text w).2
  end.

Definition run (U : UnicodeData) (H : Host) (calls : list call) (w : world)
  : world :=
  foldl (λ w c, run_call U H c w) w calls.

(** How often the configuration source of [file] has been read. *)
Definition reads_of (file : str) (w : world) : nat :=
  length (filter (λ f, f = file) (config_reads w)).

(** The cache agrees with the source: a file that loads is cached with the
    data of its source after exactly one read, or not cached and never read. *)
Definition cache_coherent (H : Host) (w : world) : Prop :=
  ∀ file data, load_config H file = Some data →
    match LOADED_DICTIONARIES w !! file with
    | Some d => d = data ∧ reads_of file w = 1%nat
    | None => reads_of file w = 0%nat
    end.

(** ** Sample data *)

(** A fragment of the Unicode database: the CJK unified ideographs
    U+4E00..U+9FFF are letters, the fullwidth digits U+FF10..U+FF19 are
    decimal digits. *)
Definition sample_unicode : UnicodeData :=
  {| uni_isalnum := λ c, in_range 19968 40959 c || in_range 65296 65305 c;
     uni_isdecimal := λ c, in_range 65296 65305 c |}.

(** One record of a word or phrase list. *)
Definition token (s : str) : json :=
  JDict [(lit "str", JStr s); (lit "tag", JStr (lit "NN"))].

Definition sample_dictionaries (file : str) : option (gmap str (list str)) :=
  if decide (file = lit "positive")
  then Some {[ lit "positive" := [lit "good"] ]}
  else if decide (file = lit "negative")
  then Some {[ lit "negative" := [lit "bad"] ]}
  else if decide (file = lit "meaningless")
  then Some {[ lit "meaningless" := [lit "ab"] ]}
  else None.

(** A host with the sample dictionaries whose service always gives [answer]. *)
Definition sample_host (answer : post_result) : Host :=
  {| load_config := sample_dictionaries; post := λ _, answer |}.

(** The state of a process that has loaded nothing, without a YAML file. *)
Definition fresh : world :=
  {| LOADED_DICTIONARIES := ∅;
     unrecognized_words_yaml := None;
     config_reads := [] |}.

(** An entity whose "type" object has no "i18n" and that has no "meaning". *)
Definition unlabelled_entity : list (str * json) :=
  [(lit "str", JStr (lit "Paris")); (lit "tag", JStr (lit "loc"));
   (lit "type", JDict [])].

(** An answer with a repeated word, a single character, a number, a date
    fragment, a token with punctuation and a CJK word; one labelled and one
    unlabelled entity. *)
Definition sample_answer : list (str * json) :=
  [(lit "word_list",
    JList [token (lit "hello"); token (lit "hello"); token (lit "a");
           token (lit "2024"); token (lit "2024" ++ [24180%N]);
           token (lit "ok!"); token [19990%N; 30028%N]]);
   (lit "entity_list",
    JList [JDict [(lit "str", JStr (lit "Paris")); (lit "tag", JStr (lit "loc"));
                  (lit "type", JDict [(lit "i18n", JStr (lit "place"))]);
                  (lit "meaning",
                   JDict [(lit "related",
                           JList [JStr (lit "city"); JStr (lit "capital")])])];
           JDict unlabelled_entity])].

(** An answer whose only entity is labelled "5" and related to "2024年". *)
Definition digit_labels : json :=
  JDict [(lit "entity_list",
          JList [JDict [(lit "str", JStr (lit "x")); (lit "tag", JStr (lit "t"));
                        (lit "type", JDict [(lit "i18n", JStr (lit "5"))]);
                        (lit "meaning",
                         JDict [(lit "related",
                                 JList [JStr (lit "2024" ++ [24180%N])])])]])].

Definition three_phrases : json :=
  JDict [(lit "phrase_list",
          JList [token (lit "good"); token (lit "badtime");
                 token (lit "neutral")])].

(** A host whose meaningless phrases are single characters and a blank
    entry; the other dictionaries are the sample ones. *)
Definition filler_dictionaries (file : str) : option (gmap str (list str)) :=
  if decide (file = lit "meaningless")
  then Some {[ lit "meaningless" := [lit ","; []; lit " "] ]}
  else sample_dictionaries file.

Definition filler_host (answer : post_result) : Host :=
  {| load_config := filler_dictionaries; post := λ _, answer |}.

(** The sample answer as the parser normalizes it. *)
Definition sample_parsed : parsed :=
  match _parse_texsmart_response (JDict sample_answer) with
  | Ok pd => pd
  | Raise _ => {| word_list := []; phrase_list := []; entity_list := [] |}
  end.

(** An answer whose second entity has no "type". *)
Definition untyped_entity : list (str * json) :=
  [(lit "str", JStr (lit "Paris")); (lit "tag", JStr (lit "loc"))].

Definition untyped_answer : list (str * json) :=
  [(lit "entity_list", JList [JDict unlabelled_entity; JDict untyped_entity])].

(** An answer whose only word has a number where its string should be. *)
Definition numeric_word : json :=
  JDict [(lit "word_list",
          JList [JDict [(lit "str", JNum 7); (lit "tag", JStr (lit "m"))]])].

(** The list field [name] of a response object is absent, or it is a list
    with the items [items]. *)
Definition absent_or_list (name : string) (kvs : list (str * json))
    (items : list json) : Prop :=
  match assoc (lit name) kvs with
  | None => items = []
  | Some v => v = JList items
  end.

(** * Properties *)

(** ** Strings, order and sets *)

Lemma starts_with_prefix p s : starts_with p s = true ↔ ∃ t, s = p ++ t.
Proof.
  revert s; induction p as [|a p IH]; intros s; simpl.
  - split; eauto.
  - destruct s as [|b s]; simpl.
    + split; [done | intros [t Ht]; discriminate].
    + rewrite andb_true_iff, N.eqb_eq, IH. split.
      * intros [-> [t ->]]. eauto.
      * intros [t Ht]. injection Ht as -> ->. eauto.
Qed.

(** [contains] is the literal substring test. *)
Lemma contains_substring needle hay :
  contains needle hay = true ↔ ∃ a b, hay = a ++ needle ++ b.
Proof.
  induction hay as [|c hay IH].
  - simpl. rewrite orb_false_r, starts_with_prefix. split.
    + intros [t Ht]. exists [], t. done.
    + intros (a & b & Hab). symmetry in Hab.
      apply app_eq_nil in Hab as [-> Hab].
      apply app_eq_nil in Hab as [-> ->]. by exists [].
  - cbn [contains]. rewrite orb_true_iff, starts_with_prefix, IH. split.
    + intros [[t Ht] | (a & b & ->)].
      * exists [], t. done.
      * exists (c :: a), b. done.
    + intros (a & b & Hab). destruct a as [|c' a].
      * left. exists b. done.
      * right. injection Hab as -> ->. eauto.
Qed.

Lemma str_leb_refl a : str_leb a a = true.
Proof.
  induction a as [|x a IH]; simpl; [done |].
  by rewrite N.eqb_refl, IH, orb_true_r.
Qed.

Lemma str_leb_total a b : str_leb a b = true ∨ str_leb b a = true.
Proof.
  revert b; induction a as [|x a IH]; intros [|y b]; simpl; auto.
  destruct (N.ltb_spec x y); simpl; auto.
  destruct (N.ltb_spec y x); simpl; auto.
  assert (x = y) as -> by lia. rewrite N.eqb_refl. simpl. apply IH.
Qed.

Lemma str_leb_trans a b c :
  str_leb a b = true → str_leb b c = true → str_leb a c = true.
Proof.
  revert b c; induction a as [|x a IH]; intros [|y b] [|z c]; simpl; try done.
  rewrite !orb_true_iff, !andb_true_iff, !N.ltb_lt, !N.eqb_eq.
  intros [Hxy | [-> Hab]] [Hyz | [-> Hbc]]; eauto.
  left. lia.
Qed.

Lemma str_leb_antisym a b :
  str_leb a b = true → str_leb b a = true → a = b.
Proof.
  revert b; induction a as [|x a IH]; intros [|y b]; simpl; try done.
  rewrite !orb_true_iff, !andb_true_iff, !N.ltb_lt, !N.eqb_eq.
  intros [Hxy | [-> Hab]] [Hyx | [Heq Hba]]; try lia.
  f_equal. by apply IH.
Qed.

Global Instance str_le_total : Total str_le.
Proof. intros a b. apply str_leb_total. Qed.

Global Instance str_le_trans : Transitive str_le.
Proof. intros a b c. apply str_leb_trans. Qed.

Global Instance str_le_antisym : AntiSymm (=) str_le.
Proof. intros a b. apply str_leb_antisym. Qed.

Lemma sorted_set_Permutation xs :
  sorted_set xs ≡ₚ elements (list_to_set xs : gset str).
Proof. apply merge_sort_Permutation. Qed.

Lemma elem_of_sorted_set xs x : x ∈ sorted_set xs ↔ x ∈ xs.
Proof.
  rewrite sorted_set_Permutation, elem_of_elements.
  apply elem_of_list_to_set.
Qed.

Lemma NoDup_sorted_set xs : NoDup (sorted_set xs).
Proof. rewrite sorted_set_Permutation. apply NoDup_elements. Qed.

Lemma StronglySorted_sorted_set xs : StronglySorted str_le (sorted_set xs).
Proof. apply StronglySorted_merge_sort; apply _. Qed.

Lemma sorted_set_nil : sorted_set [] = [].
Proof. reflexivity. Qed.

(** The result of [sorted(set(xs))] is fixed by the members of [xs]: the order
    in which a set is traversed does not show in it. *)
Lemma sorted_set_unique xs l :
  NoDup l → StronglySorted str_le l → (∀ x, x ∈ l ↔ x ∈ xs) →
  l = sorted_set xs.
Proof.
  intros Hnd Hs Hin.
  apply (StronglySorted_unique str_le); [done | apply StronglySorted_sorted_set |].
  apply NoDup_Permutation; [done | apply NoDup_sorted_set |].
  intros x. by rewrite Hin, elem_of_sorted_set.
Qed.

(** ** Counting *)

Lemma Counter_step_lookup (l : list str) : ∀ (c : gmap str Z) s,
  NoDup l → (∀ x, x ∈ l → c !! x = None) →
  foldl (λ c w, <[w := default 0 (c !! w) + 1]> c) c l !! s
  = if decide (s ∈ l) then Some 1 else c !! s.
Proof.
  induction l as [|x l IH]; intros c s Hnd Hc.
  - destruct (decide (s ∈ [])) as [Hs|]; [by apply elem_of_nil in Hs | done].
  - apply NoDup_cons in Hnd as [Hx Hnd].
    cbn [foldl]. rewrite (Hc x) by left. cbn [default].
    rewrite IH; [| done |].
    + destruct (decide (s = x)) as [-> | Hne].
      * rewrite decide_False by done. rewrite lookup_insert_eq.
        by rewrite decide_True by left.
      * rewrite lookup_insert_ne by done.
        destruct (decide (s ∈ l)) as [Hl | Hl],
          (decide (s ∈ x :: l)) as [Hxl | Hxl]; try done.
        -- exfalso. apply Hxl. by right.
        -- exfalso. apply elem_of_cons in Hxl as [? | ?]; done.
    + intros y Hy. rewrite lookup_insert_ne; [| set_solver].
      apply Hc. by right.
Qed.

Lemma Counter_NoDup_lookup l s :
  NoDup l → Counter l !! s = if decide (s ∈ l) then Some 1 else None.
Proof.
  intros Hnd. unfold Counter. rewrite Counter_step_lookup; [done | done |].
  intros x _. apply lookup_empty.
Qed.

(** ** Classification *)

Global Instance substring_dec needle hay : Decision (substring needle hay).
Proof.
  refine (cast_if (decide (contains needle hay = true)));
    unfold substring; by rewrite <- contains_substring.
Defined.

Global Instance counts_negative_dec pos neg token :
  Decision (counts_negative pos neg token).
Proof. unfold counts_negative. apply _. Defined.

Global Instance counts_unrecognized_dec pos neg token :
  Decision (counts_unrecognized pos neg token).
Proof. unfold counts_unrecognized. apply _. Defined.

Global Instance counts_positive_dec pos token :
  Decision (counts_positive pos token).
Proof. unfold counts_positive. apply _. Defined.

Lemma existsb_contains negative_list word :
  existsb (λ neg_word, contains neg_word word) negative_list = true
  ↔ Exists (λ entry, substring entry word) negative_list.
Proof.
  induction negative_list as [|n l IH]; simpl.
  - split; [done | by intros ?%Exists_nil].
  - rewrite orb_true_iff, Exists_cons, IH, contains_substring. done.
Qed.

(** The loop from any accumulator: each token lands in exactly one bucket,
    in order, and the two counters follow their buckets. *)
Lemma classify_loop pos neg words : ∀ rd out,
  foldl (classify_word pos neg) (rd, out) words
  = ({| positive_num :=
          positive_num rd
          + Z.of_nat (length (filter (counts_positive pos) words));
        negative_num :=
          negative_num rd
          + Z.of_nat (length (filter (counts_negative pos neg) words));
        word_num := word_num rd |},
     {| positive := positive out ++ filter (counts_positive pos) words;
        negative := negative out ++ filter (counts_negative pos neg) words;
        unrecognized :=
          unrecognized out ++ filter (counts_unrecognized pos neg) words |}).
Proof.
  induction words as [|word words IH]; intros [p n wn] [ps ns us].
  - simpl. rewrite !app_nil_r, !Z.add_0_r. done.
  - cbn [foldl]. unfold classify_word at 2. cbn [positive_num negative_num
      word_num positive negative unrecognized].
    destruct (bool_decide (word ∈ pos)) eqn:Hp.
    + apply bool_decide_eq_true in Hp. rewrite IH.
      rewrite (filter_cons_True (counts_positive pos)) by done.
      rewrite (filter_cons_False (counts_negative pos neg)) by (by intros [? _]).
      rewrite (filter_cons_False (counts_unrecognized pos neg))
        by (by intros [? _]).
      cbn [positive_num negative_num word_num positive negative unrecognized
           length].
      rewrite <- app_assoc. f_equal. f_equal; lia.
    + apply bool_decide_eq_false in Hp.
      rewrite (filter_cons_False (counts_positive pos)) by done.
      destruct (existsb _ neg) eqn:Hn.
      * apply existsb_contains in Hn. rewrite IH.
        rewrite (filter_cons_True (counts_negative pos neg)) by done.
        rewrite (filter_cons_False (counts_unrecognized pos neg))
          by (by intros [_ ?]).
        cbn [positive_num negative_num word_num positive negative unrecognized
             length].
        rewrite <- app_assoc. f_equal. f_equal; lia.
      * assert (¬ Exists (λ entry, substring entry word) neg) as Hn'.
        { rewrite <- existsb_contains, Hn. done. }
        rewrite IH.
        rewrite (filter_cons_False (counts_negative pos neg))
          by (by intros [_ ?]).
        rewrite (filter_cons_True (counts_unrecognized pos neg)) by done.
        cbn [positive_num negative_num word_num positive negative unrecognized].
        rewrite <- app_assoc. done.
Qed.

Lemma classify_spec pos neg words :
  classify pos neg words
  = ({| positive_num := Z.of_nat (length (filter (counts_positive pos) words));
        negative_num :=
          Z.of_nat (length (filter (counts_negative pos neg) words));
        word_num := None |},
     {| positive := filter (counts_positive pos) words;
        negative := filter (counts_negative pos neg) words;
        unrecognized :=
          sorted_set (filter (counts_unrecognized pos neg) words) |}).
Proof. unfold classify. rewrite classify_loop. done. Qed.

(** Two filters that exclude each other select no more than the whole list. *)
Lemma filter_disjoint_length {A} (P Q : A → Prop)
    `{∀ x, Decision (P x)} `{∀ x, Decision (Q x)} (l : list A) :
  (∀ x, P x → Q x → False) →
  (length (filter P l) + length (filter Q l) ≤ length l)%nat.
Proof.
  intros Hex. induction l as [|x l IH]; [done |].
  rewrite !filter_cons. destruct (decide (P x)), (decide (Q x)); simpl; try lia.
  exfalso. eauto.
Qed.

(** ** Running the methods *)

Section Runs.
Variable U : UnicodeData.
Variable H : Host.

Lemma load_result file w :
  (_load_yaml_dict H file w).1
  = match dictionary H w file with
    | Some data => Ok data
    | None => Raise ConfigError
    end.
Proof.
  unfold _load_yaml_dict, dictionary, bind, ConfigManager_load.
  destruct (LOADED_DICTIONARIES w !! file); [done |].
  by destruct (load_config H file).
Qed.

(** A load changes neither what later loads give nor the YAML file. *)
Lemma load_dictionary file w g :
  dictionary H (_load_yaml_dict H file w).2 g = dictionary H w g.
Proof.
  unfold _load_yaml_dict, dictionary, bind, ConfigManager_load.
  destruct (LOADED_DICTIONARIES w !! file) eqn:Hc; [done |].
  destruct (load_config H file) eqn:Hl; simpl; [| done].
  destruct (decide (file = g)) as [<- | Hne].
  - by rewrite lookup_insert_eq, Hc, Hl.
  - by rewrite lookup_insert_ne.
Qed.

Lemma load_file file w :
  unrecognized_words_yaml (_load_yaml_dict H file w).2
  = unrecognized_words_yaml w.
Proof.
  unfold _load_yaml_dict, bind, ConfigManager_load.
  destruct (LOADED_DICTIONARIES w !! file); [done |].
  by destruct (load_config H file).
Qed.

Lemma remove_meaningless_result text w :
  (_remove_meaningless H text w).1
  = match dictionary H w (lit "meaningless") with
    | Some dm => Ok (request_text dm text)
    | None => Raise ConfigError
    end.
Proof.
  unfold _remove_meaningless, bind.
  pose proof (load_result (lit "meaningless") w) as Hr.
  destruct (_load_yaml_dict H (lit "meaningless") w) as [[dm | e] w1].
  all: simpl in *.
  all: by destruct (dictionary H w (lit "meaningless")); simplify_eq.
Qed.

Lemma remove_meaningless_state text w :
  (_remove_meaningless H text w).2 = (_load_yaml_dict H (lit "meaningless") w).2.
Proof.
  unfold _remove_meaningless, bind.
  by destruct (_load_yaml_dict H (lit "meaningless") w) as [[dm | e] w1].
Qed.

(** [term_freq] loads the meaningless dictionary, and then it is [analyse]
    on what the client answers. *)
Lemma term_freq_result text w :
  (term_freq U H text w).1
  = match dictionary H w (lit "meaningless") with
    | Some dm => analyse U (_call_texsmart_api H (request_text dm text))
    | None => Raise ConfigError
    end.
Proof.
  unfold term_freq. unfold bind at 1.
  pose proof (remove_meaningless_result text w) as Hr.
  destruct (_remove_meaningless H text w) as [[t | e] w1]; simpl in Hr;
    destruct (dictionary H w (lit "meaningless")) as [dm |];
    simplify_eq; try done.
  unfold analyse, bind, lift, ret.
  destruct (_parse_texsmart_response _) as [pd | e]; [| done]. simpl.
  destruct (collect_entities _ _ _) as [[il rl] | e]; [| done]. simpl.
  destruct (_remove_punctuation U (w_str <$> _)) as [ws | e]; [| done]. simpl.
  destruct (_remove_punctuation U il) as [il' | e]; [| done]. simpl.
  by destruct (_remove_punctuation U rl) as [rl' | e].
Qed.

Lemma remove_meaningless_dictionary text w g :
  dictionary H (_remove_meaningless H text w).2 g = dictionary H w g.
Proof. rewrite remove_meaningless_state. apply load_dictionary. Qed.

Lemma remove_meaningless_file text w :
  unrecognized_words_yaml (_remove_meaningless H text w).2
  = unrecognized_words_yaml w.
Proof. rewrite remove_meaningless_state. apply load_file. Qed.

Lemma sentiment_result text w :
  (sentiment U H text w).1 = sentiment_value U H text w.
Proof.
  unfold sentiment, sentiment_value. unfold bind at 1.
  pose proof (remove_meaningless_result text w) as Hr.
  pose proof (λ g, remove_meaningless_dictionary text w g) as Hd.
  destruct (_remove_meaningless H text w) as [[t | e] w1]; simpl in Hr, Hd;
    destruct (dictionary H w (lit "meaningless")) as [dm |];
    simplify_eq; try done.
  rewrite <- !Hd. clear Hd. unfold bind at 1.
  pose proof (load_result (lit "positive") w1) as Hr.
  pose proof (λ g, load_dictionary (lit "positive") w1 g) as Hd.
  destruct (_load_yaml_dict H (lit "positive") w1) as [[dp | e] w2];
    simpl in Hr, Hd;
    destruct (dictionary H w1 (lit "positive")) as [dp' |];
    simplify_eq; try done.
  rewrite <- !Hd. clear Hd. unfold bind at 1.
  pose proof (load_result (lit "negative") w2) as Hr.
  destruct (_load_yaml_dict H (lit "negative") w2) as [[dn | e] w3];
    simpl in Hr;
    destruct (dictionary H w2 (lit "negative")) as [dn' |];
    simplify_eq; try done.
  unfold phrase_tokens, bind, lift, entries.
  destruct (_parse_texsmart_response _) as [pd | e]; [| done]. simpl.
  destruct (_remove_punctuation U _) as [ws | e]; [| done]. simpl.
  unfold report.
  by destruct (classify _ _ ws) as [rd out].
Qed.

(** A returning [sentiment] leaves the merged unrecognized words on file. *)
Lemma sentiment_file text w dm dp dn words :
  dictionary H w (lit "meaningless") = Some dm →
  dictionary H w (lit "positive") = Some dp →
  dictionary H w (lit "negative") = Some dn →
  phrase_tokens U (_call_texsmart_api H (request_text dm text)) = Ok words →
  unrecognized_words_yaml (sentiment U H text w).2
  = Some {[ lit "unrecognized" :=
              sorted_set (existing_words w ++
                unrecognized (classify (entries "positive" dp)
                                       (entries "negative" dn) words).2) ]}.
Proof.
  intros Hm Hp Hn Hw.
  unfold sentiment. unfold bind at 1.
  pose proof (remove_meaningless_result text w) as Hr.
  pose proof (λ g, remove_meaningless_dictionary text w g) as Hd.
  pose proof (remove_meaningless_file text w) as Hf.
  destruct (_remove_meaningless H text w) as [[t | e] w1];
    simpl in Hr, Hd, Hf; rewrite Hm in Hr; simplify_eq.
  rewrite <- Hd in Hp, Hn. clear Hd. unfold bind at 1.
  pose proof (load_result (lit "positive") w1) as Hr.
  pose proof (λ g, load_dictionary (lit "positive") w1 g) as Hd.
  pose proof (load_file (lit "positive") w1) as Hf2.
  destruct (_load_yaml_dict H (lit "positive") w1) as [[dp' | e] w2];
    simpl in Hr, Hd, Hf2; rewrite Hp in Hr; simplify_eq.
  rewrite <- Hd in Hn. clear Hd. unfold bind at 1.
  pose proof (load_result (lit "negative") w2) as Hr.
  pose proof (load_file (lit "negative") w2) as Hf3.
  destruct (_load_yaml_dict H (lit "negative") w2) as [[dn' | e] w3];
    simpl in Hr, Hf3; rewrite Hn in Hr; simplify_eq.
  unfold phrase_tokens in Hw. unfold bind, lift, entries.
  destruct (_parse_texsmart_response _) as [pd | e]; [| done].
  simpl in Hw |- *. rewrite Hw. simpl.
  destruct (classify _ _ words) as [rd out]. simpl.
  unfold existing_words. by rewrite Hf3, Hf2, Hf.
Qed.

End Runs.

(** ** Sentiment classification *)

(** C1. With positive dictionary ["good"], negative dictionary ["bad"] and
    the phrase tokens ["good", "badtime", "neutral"], [sentiment] returns
    positive_num = 1, negative_num = 1, word_num = 3, and the unrecognized
    bucket is ["neutral"] (it is what gets merged into the file).  For any
    dictionaries and tokens, a token is positive when it is a member of the
    positive list, else negative when some negative entry is a literal
    substring of it, else unrecognized; the counters are the numbers of
    occurrences in the positive and negative buckets. *)
Theorem sentiment_classification (U : UnicodeData) (H : Host) (text : str)
    (w : world) (dm dp dn : gmap str (list str)) (pd : parsed)
    (pos neg words : list str) :
  dictionary H w (lit "meaningless") = Some dm →
  dictionary H w (lit "positive") = Some dp →
  entries "positive" dp = [lit "good"] →
  dictionary H w (lit "negative") = Some dn →
  entries "negative" dn = [lit "bad"] →
  _parse_texsmart_response (_call_texsmart_api H (request_text dm text))
    = Ok pd →
  w_str <$> phrase_list pd
    = [JStr (lit "good"); JStr (lit "badtime"); JStr (lit "neutral")] →
  ((sentiment U H text w).1
     = Ok {| positive_num := 1; negative_num := 1; word_num := Some 3 |}
   ∧ unrecognized
       (classify [lit "good"] [lit "bad"]
                 [lit "good"; lit "badtime"; lit "neutral"]).2
     = [lit "neutral"]
   ∧ unrecognized_words_yaml (sentiment U H text w).2
     = Some {[ lit "unrecognized" :=
                 sorted_set (existing_words w ++ [lit "neutral"]) ]})
  ∧ classify pos neg words
    = ({| positive_num :=
            Z.of_nat (length (filter (counts_positive pos) words));
          negative_num :=
            Z.of_nat (length (filter (counts_negative pos neg) words));
          word_num := None |},
       {| positive := filter (counts_positive pos) words;
          negative := filter (counts_negative pos neg) words;
          unrecognized :=
            sorted_set (filter (counts_unrecognized pos neg) words) |}).
Proof.
  intros Hm Hp Hpe Hn Hne Hparse Hphr.
  assert (phrase_tokens U (_call_texsmart_api H (request_text dm text))
          = Ok [lit "good"; lit "badtime"; lit "neutral"]) as Htok.
  { unfold phrase_tokens. rewrite Hparse. cbn [mbind result_bind].
    rewrite Hphr. reflexivity. }
  assert (unrecognized
            (classify [lit "good"] [lit "bad"]
                      [lit "good"; lit "badtime"; lit "neutral"]).2
          = [lit "neutral"]) as Hun by (vm_compute; reflexivity).
  split; [| apply classify_spec].
  split; [| split; [exact Hun |]].
  - rewrite sentiment_result. unfold sentiment_value.
    rewrite Hm, Hp, Hn, Htok, Hpe, Hne. vm_compute. reflexivity.
  - rewrite (sentiment_file U H text w dm dp dn _ Hm Hp Hn Htok).
    rewrite Hpe, Hne, Hun. reflexivity.
Qed.

Lemma sentiment_classification_witness :
  (sentiment sample_unicode (sample_host (Responded three_phrases))
             (lit "a fab day") fresh).1
  = Ok {| positive_num := 1; negative_num := 1; word_num := Some 3 |}.
Proof.
  refine (proj1 (proj1 (sentiment_classification
    sample_unicode (sample_host (Responded three_phrases)) (lit "a fab day")
    fresh {[ lit "meaningless" := [lit "ab"] ]}
    {[ lit "positive" := [lit "good"] ]} {[ lit "negative" := [lit "bad"] ]}
    {| word_list := [];
       phrase_list :=
         [ {| w_str := JStr (lit "good"); w_tag := JStr (lit "NN") |};
           {| w_str := JStr (lit "badtime"); w_tag := JStr (lit "NN") |};
           {| w_str := JStr (lit "neutral"); w_tag := JStr (lit "NN") |} ];
       entity_list := [] |}
    [] [] [] _ _ _ _ _ _ _))); vm_compute; reflexivity.
Defined.

(** ** A failing segmentation call *)

Lemma failed_error_marker H text :
  failed (post H text) →
  ∃ reason, _call_texsmart_api H text = JDict [(lit "error", JStr reason)].
Proof.
  unfold _call_texsmart_api. destruct (post H text); [done | | |]; eauto.
Qed.

Lemma analyse_error_marker U reason :
  analyse U (JDict [(lit "error", JStr reason)]) = Ok (∅, [], []).
Proof. vm_compute. reflexivity. Qed.

Lemma phrase_tokens_error_marker U reason :
  phrase_tokens U (JDict [(lit "error", JStr reason)]) = Ok [].
Proof. vm_compute. reflexivity. Qed.

(** C2. When the segmentation call fails (transport error, JSON decode
    error or any other exception) the client returns an error marker
    {"error": reason} instead of raising; [term_freq] then returns an empty
    frequency mapping and empty label and related lists, and [sentiment]
    returns a report with positive_num = 0 and negative_num = 0 (and
    word_num = 0).  The dictionaries the two methods load are assumed to
    load. *)
Theorem segmentation_failure_resilience (U : UnicodeData) (H : Host)
    (text : str) (w : world) (dm : gmap str (list str)) :
  dictionary H w (lit "meaningless") = Some dm →
  failed (post H (request_text dm text)) →
  (∃ reason, _call_texsmart_api H (request_text dm text)
             = JDict [(lit "error", JStr reason)])
  ∧ (term_freq U H text w).1 = Ok (∅, [], [])
  ∧ (∀ dp dn,
       dictionary H w (lit "positive") = Some dp →
       dictionary H w (lit "negative") = Some dn →
       (sentiment U H text w).1
       = Ok {| positive_num := 0; negative_num := 0; word_num := Some 0 |}).
Proof.
  intros Hm Hfail.
  destruct (failed_error_marker H _ Hfail) as [reason Hcall].
  split; [by exists reason |]. split.
  - by rewrite term_freq_result, Hm, Hcall, analyse_error_marker.
  - intros dp dn Hp Hn. rewrite sentiment_result. unfold sentiment_value.
    by rewrite Hm, Hp, Hn, Hcall, phrase_tokens_error_marker.
Qed.

Lemma segmentation_failure_resilience_witness :
  (term_freq sample_unicode (sample_host RequestException)
             (lit "a fab day") fresh).1 = Ok (∅, [], [])
  ∧ (sentiment sample_unicode (sample_host RequestException)
               (lit "a fab day") fresh).1
    = Ok {| positive_num := 0; negative_num := 0; word_num := Some 0 |}.
Proof.
  pose proof (segmentation_failure_resilience sample_unicode
    (sample_host RequestException) (lit "a fab day") fresh
    {[ lit "meaningless" := [lit "ab"] ]} eq_refl I) as (_ & Htf & Hs).
  split; [exact Htf |].
  apply (Hs {[ lit "positive" := [lit "good"] ]}
            {[ lit "negative" := [lit "bad"] ]}); reflexivity.
Defined.

(** ** The text normalizer *)

Lemma replace_scan_absent old new text :
  old ≠ [] → ¬ substring old text → replace_scan old new text O = text.
Proof.
  intros Hold. induction text as [|c rest IH]; intros Habs; [done |].
  cbn [replace_scan].
  destruct (starts_with old (c :: rest)) eqn:Hsw.
  - exfalso. apply Habs. apply starts_with_prefix in Hsw as [t Ht].
    exists [], t. done.
  - f_equal. apply IH. intros (a & b & ->). apply Habs.
    exists (c :: a), b. done.
Qed.

Lemma str_replace_absent text old :
  (old ≠ [] → ¬ substring old text) → str_replace text old [] = text.
Proof.
  destruct old as [|o old]; simpl.
  - intros _. induction text as [|c text IH]; simpl; [done | by f_equal].
  - intros Habs. apply replace_scan_absent; auto.
Qed.

(** A text without any of the phrases passes unchanged. *)
Lemma strip_all_clean meaningless text :
  clean meaningless text → strip_all meaningless text = text.
Proof.
  unfold strip_all.
  induction meaningless as [|word l IH]; intros Hc; [done |].
  cbn [foldl]. rewrite str_replace_absent.
  - apply IH. intros x Hx. apply Hc. by right.
  - apply Hc. by left.
Qed.

(** One pass can leave an occurrence behind: removing "ab" from "aabb"
    joins the outer "a" and "b" into a new "ab", which a second pass then
    removes. *)
Lemma normalize_not_idempotent :
  (_remove_meaningless (sample_host OtherException) (lit "aabb") fresh).1
  = Ok (lit "ab")
  ∧ (_remove_meaningless (sample_host OtherException) (lit "ab")
       (_remove_meaningless (sample_host OtherException) (lit "aabb")
                            fresh).2).1
    = Ok []
  ∧ lit "ab" ≠ [].
Proof. vm_compute. done. Qed.

(** C3 (amended). The normalizer removes the occurrences of each meaningless
    phrase in dictionary order, one [replace] pass per phrase.  Whenever the
    normalized text contains no occurrence of a non-empty meaningless
    phrase, normalizing it again gives the same text:
    normalize(normalize(t)) = normalize(t); and a text that contains none to
    begin with is its own normal form. *)
Theorem normalize_idempotent_when_clean (H : Host) (text : str) (w : world)
    (dm : gmap str (list str)) :
  dictionary H w (lit "meaningless") = Some dm →
  clean (entries "meaningless" dm) (request_text dm text) →
  ∃ t1 w1 w2,
    _remove_meaningless H text w = (Ok t1, w1)
    ∧ _remove_meaningless H t1 w1 = (Ok t1, w2)
    ∧ t1 = strip_all (entries "meaningless" dm) text
    ∧ (clean (entries "meaningless" dm) text → t1 = text).
Proof.
  intros Hm Hclean.
  pose proof (remove_meaningless_result H text w) as Hr.
  pose proof (remove_meaningless_dictionary H text w (lit "meaningless"))
    as Hd.
  destruct (_remove_meaningless H text w) as [r1 w1]. simpl in Hr, Hd.
  rewrite Hm in Hr, Hd. subst r1.
  pose proof (remove_meaningless_result H (request_text dm text) w1) as Hr.
  destruct (_remove_meaningless H (request_text dm text) w1) as [r2 w2]
    eqn:Hrun.
  simpl in Hr. rewrite Hd in Hr. subst r2.
  exists (request_text dm text), w1, w2.
  split; [done |]. split.
  - rewrite Hrun.
    assert (request_text dm (request_text dm text) = request_text dm text)
      as -> by (by apply (strip_all_clean (entries "meaningless" dm))).
    done.
  - split; [done |]. intros Hc.
    by apply (strip_all_clean (entries "meaningless" dm)).
Qed.

Lemma normalize_idempotent_when_clean_witness :
  ∃ t1 w1 w2,
    _remove_meaningless (sample_host OtherException) (lit "a fab day") fresh
    = (Ok t1, w1)
    ∧ _remove_meaningless (sample_host OtherException) t1 w1 = (Ok t1, w2)
    ∧ t1 = strip_all [lit "ab"] (lit "a fab day")
    ∧ (clean [lit "ab"] (lit "a fab day") → t1 = lit "a fab day").
Proof.
  assert (clean (entries "meaningless" {[ lit "meaningless" := [lit "ab"] ]})
            (request_text {[ lit "meaningless" := [lit "ab"] ]}
                          (lit "a fab day"))) as Hclean.
  { intros word Hw _. apply list_elem_of_singleton in Hw as ->.
    intros Hs. apply contains_substring in Hs. vm_compute in Hs.
    discriminate. }
  exact (normalize_idempotent_when_clean (sample_host OtherException)
           (lit "a fab day") fresh {[ lit "meaningless" := [lit "ab"] ]}
           eq_refl Hclean).
Defined.

(** ** Response normalization *)

Lemma parse_word_ok j :
  word_ok j → ∃ e, parse_word j = Ok e ∧ word_record j e.
Proof.
  intros (kvs & -> & [s Hs] & [t Ht]).
  exists {| w_str := s; w_tag := t |}. split.
  - unfold parse_word, py_getitem. rewrite Hs, Ht. done.
  - exists kvs. done.
Qed.

Lemma parse_entity_ok j :
  entity_ok j → ∃ e, parse_entity j = Ok e ∧ entity_record j e.
Proof.
  intros (kvs & ty & -> & [s Hs] & [t Ht] & Hty & [r Hr]).
  exists {| e_str := s; e_tag := t;
            e_i18n := default (JStr []) (assoc (lit "i18n") ty);
            e_related := r |}.
  split.
  - unfold parse_entity, py_getitem, py_get. cbn [mbind result_bind].
    rewrite Hs, Ht, Hty. cbn [mbind result_bind].
    unfold related_of in Hr.
    destruct (assoc (lit "meaning") kvs) as [[| | | | | meaning] |];
      simplify_eq; done.
  - exists kvs, ty. done.
Qed.

Lemma for_each_ok {A} (f : json → result A) (ok : json → Prop)
    (rel : json → A → Prop) (l : list json) :
  (∀ j, ok j → ∃ e, f j = Ok e ∧ rel j e) →
  Forall ok l → ∃ es, for_each f l = Ok es ∧ Forall2 rel l es.
Proof.
  intros Hf. induction 1 as [|j l Hj _ (es & Hes & Hrel)].
  - exists []. by split; [| constructor].
  - destruct (Hf j Hj) as (e & He & Hje).
    exists (e :: es). split; [| by constructor].
    cbn [for_each]. rewrite He. cbn [mbind result_bind]. by rewrite Hes.
Qed.

(** A record without "tag" makes the parser raise. *)
Lemma parse_raises_without_tag :
  _parse_texsmart_response
    (JDict [(lit "word_list", JList [JDict [(lit "str", JStr (lit "a"))]])])
  = Raise KeyError.
Proof. vm_compute. reflexivity. Qed.

(** A list field that is present but not iterable makes the parser raise as
    well: [for word in None] is a TypeError. *)
Lemma parse_raises_on_null_list :
  _parse_texsmart_response (JDict [(lit "word_list", JNull)])
  = Raise TypeError.
Proof. vm_compute. reflexivity. Qed.

Lemma absent_or_list_field name kvs items :
  absent_or_list name kvs items → list_field name kvs = Ok items.
Proof.
  unfold absent_or_list, list_field.
  destruct (assoc (lit name) kvs) as [v |]; by intros ->.
Qed.

(** C4 (amended). On a response object whose word_list, phrase_list and
    entity_list are each absent or a list, whose word and phrase records
    carry "str" and "tag" and whose entity records carry "str", "tag" and a
    "type" object (a "meaning", when present, being an object),
    normalization returns: an absent list field gives the empty sequence, a
    missing "i18n" gives the empty label, and a missing "meaning" or
    "related" gives the empty related list. *)
Theorem parse_defaults (kvs : list (str * json)) (ws ps es : list json) :
  absent_or_list "word_list" kvs ws →
  absent_or_list "phrase_list" kvs ps →
  absent_or_list "entity_list" kvs es →
  Forall word_ok ws → Forall word_ok ps → Forall entity_ok es →
  ∃ pd, _parse_texsmart_response (JDict kvs) = Ok pd
    ∧ Forall2 word_record ws (word_list pd)
    ∧ Forall2 word_record ps (phrase_list pd)
    ∧ Forall2 entity_record es (entity_list pd)
    ∧ (assoc (lit "word_list") kvs = None → word_list pd = [])
    ∧ (assoc (lit "phrase_list") kvs = None → phrase_list pd = [])
    ∧ (assoc (lit "entity_list") kvs = None → entity_list pd = []).
Proof.
  intros Hws%absent_or_list_field Hps%absent_or_list_field
         Hes%absent_or_list_field Hwok Hpok Heok.
  unfold list_field in Hws, Hps, Hes.
  destruct (for_each_ok _ _ _ ws parse_word_ok Hwok) as (wl & Hwl & Hwrel).
  destruct (for_each_ok _ _ _ ps parse_word_ok Hpok) as (pl & Hpl & Hprel).
  destruct (for_each_ok _ _ _ es parse_entity_ok Heok) as (el & Hel & Herel).
  exists {| word_list := wl; phrase_list := pl; entity_list := el |}.
  split.
  { unfold _parse_texsmart_response, py_get. cbn [mbind result_bind].
    rewrite Hws. cbn [mbind result_bind]. rewrite Hwl. cbn [mbind result_bind].
    rewrite Hps. cbn [mbind result_bind]. rewrite Hpl. cbn [mbind result_bind].
    rewrite Hes. cbn [mbind result_bind]. rewrite Hel. done. }
  repeat split; try done; cbn [word_list phrase_list entity_list].
  - intros Hnone. rewrite Hnone in Hws. simplify_eq/=.
    by apply Forall2_nil_inv_l in Hwrel.
  - intros Hnone. rewrite Hnone in Hps. simplify_eq/=.
    by apply Forall2_nil_inv_l in Hprel.
  - intros Hnone. rewrite Hnone in Hes. simplify_eq/=.
    by apply Forall2_nil_inv_l in Herel.
Qed.

Lemma parse_defaults_witness :
  ∃ pd, _parse_texsmart_response
          (JDict [(lit "entity_list", JList [JDict unlabelled_entity])])
        = Ok pd
    ∧ Forall2 word_record [] (word_list pd)
    ∧ Forall2 word_record [] (phrase_list pd)
    ∧ Forall2 entity_record [JDict unlabelled_entity] (entity_list pd)
    ∧ (assoc (lit "word_list")
             [(lit "entity_list", JList [JDict unlabelled_entity])] = None →
       word_list pd = [])
    ∧ (assoc (lit "phrase_list")
             [(lit "entity_list", JList [JDict unlabelled_entity])] = None →
       phrase_list pd = [])
    ∧ (assoc (lit "entity_list")
             [(lit "entity_list", JList [JDict unlabelled_entity])] = None →
       entity_list pd = []).
Proof.
  apply (parse_defaults
           [(lit "entity_list", JList [JDict unlabelled_entity])]
           [] [] [JDict unlabelled_entity]);
    try (vm_compute; reflexivity); repeat constructor.
  exists unlabelled_entity, [].
  repeat split; try reflexivity; eexists; reflexivity.
Defined.

(** ** Token filters *)

Lemma punct_search_false U s :
  punct_search U s = false ↔ ¬ has_non_word U s.
Proof.
  unfold punct_search, has_non_word. induction s as [|c s IH]; simpl.
  - split; [by intros _ ?%Exists_nil | done].
  - rewrite orb_false_iff, negb_false_iff, IH, Exists_cons.
    destruct (is_word U c); naive_solver.
Qed.

Lemma remove_punctuation_elem U words : ∀ kept s,
  _remove_punctuation U words = Ok kept →
  s ∈ kept ↔ JStr s ∈ words ∧ punct_search U s = false.
Proof.
  induction words as [|word words IH]; intros kept s Hk.
  - simplify_eq/=. rewrite !elem_of_nil. naive_solver.
  - destruct word as [| | | word | |]; try discriminate.
    cbn [_remove_punctuation] in Hk.
    destruct (_remove_punctuation U words) as [rest |]; [| discriminate].
    cbn [mbind result_bind] in Hk. injection Hk as <-.
    specialize (IH rest s eq_refl).
    destruct (punct_search U word) eqn:Hp.
    + rewrite IH, elem_of_cons. split; [naive_solver |].
      intros [[Heq | ?] Hs]; [| done]. simplify_eq. congruence.
    + rewrite !elem_of_cons, IH. split; [| naive_solver].
      intros [-> | [? ?]]; [| by auto]. auto.
Qed.

Lemma remove_unless_words_elem U items s :
  s ∈ _remove_unless_words U items
  ↔ s ∈ items ∧ (1 < length s)%nat ∧ is_unwanted U s = false.
Proof.
  unfold _remove_unless_words. rewrite list_elem_of_filter.
  rewrite andb_True, negb_True, Is_true_false, Is_true_true, Nat.ltb_lt.
  naive_solver.
Qed.

Lemma all_digits_pure U s : pure_digits U s → all_digits U s = true.
Proof.
  intros [Hne Hall]. destruct s as [|c s]; [done |].
  unfold all_digits. apply forallb_forall. intros x Hx.
  rewrite Forall_forall in Hall. apply Hall. by apply list_elem_of_In.
Qed.

Lemma digit_then_suffix U unit ds :
  pure_digits U ds → digit_then U unit (ds ++ [unit]) = true.
Proof.
  intros [Hne Hall]. induction Hall as [|d ds Hd Hall IH]; [done |].
  destruct ds as [|d' ds].
  - simpl. by rewrite Hd, N.eqb_refl.
  - change (digit_then U unit ((d :: d' :: ds) ++ [unit]))
      with ((isdecimal U d && N.eqb d' unit)
            || digit_then U unit ((d' :: ds) ++ [unit])).
    rewrite IH by done. apply orb_true_r.
Qed.

(** What the specification excludes does not pass the two word filters. *)
Lemma is_unwanted_excluded U s :
  pure_digits U s ∨ digits_and_unit U s → is_unwanted U s = true.
Proof.
  unfold is_unwanted. rewrite existsb_exists.
  intros [Hd | (ds & unit & -> & Hd & Hu)].
  - exists AllDigits. split; [by left |].
    simpl. by rewrite all_digits_pure.
  - exists (DigitsThen unit). split.
    + unfold unit_markers in Hu. unfold unwanted_patterns.
      apply list_elem_of_In. set_solver.
    + simpl. by apply digit_then_suffix.
Qed.

(** ** The term-frequency pipeline *)

Lemma analyse_Ok U response c i18n related :
  analyse U response = Ok (c, i18n, related) →
  ∃ pd il rl words il' rl',
    _parse_texsmart_response response = Ok pd
    ∧ collect_entities (entity_list pd) [] [] = Ok (il, rl)
    ∧ _remove_punctuation U (w_str <$> word_list pd) = Ok words
    ∧ _remove_punctuation U il = Ok il'
    ∧ _remove_punctuation U rl = Ok rl'
    ∧ c = Counter (sorted_set (_remove_unless_words U words))
    ∧ i18n = sorted_set il'
    ∧ related = sorted_set rl'.
Proof.
  unfold analyse. intros Ha.
  destruct (_parse_texsmart_response response) as [pd |] eqn:Hpd; [| done].
  cbn [mbind result_bind] in Ha.
  destruct (collect_entities _ _ _) as [[il rl] |] eqn:Hce; [| done].
  cbn [mbind result_bind fst snd] in Ha.
  destruct (_remove_punctuation U (w_str <$> _)) as [words |] eqn:Hw;
    [| done].
  cbn [mbind result_bind] in Ha.
  destruct (_remove_punctuation U il) as [il' |] eqn:Hil; [| done].
  cbn [mbind result_bind] in Ha.
  destruct (_remove_punctuation U rl) as [rl' |] eqn:Hrl; [| done].
  cbn [mbind result_bind] in Ha. simplify_eq.
  by exists pd, il, rl, words, il', rl'.
Qed.

Lemma term_freq_Ok U H text w out :
  (term_freq U H text w).1 = Ok out →
  ∃ dm, dictionary H w (lit "meaningless") = Some dm
    ∧ analyse U (_call_texsmart_api H (request_text dm text)) = Ok out.
Proof.
  rewrite term_freq_result.
  destruct (dictionary H w (lit "meaningless")) as [dm |]; [| done]. eauto.
Qed.

Lemma Counter_sorted_set_lookup l s :
  Counter (sorted_set l) !! s = if decide (s ∈ l) then Some 1 else None.
Proof.
  rewrite Counter_NoDup_lookup by apply NoDup_sorted_set.
  destruct (decide (s ∈ sorted_set l)) as [Hs | Hs],
    (decide (s ∈ l)) as [Hl | Hl]; try done;
    rewrite elem_of_sorted_set in Hs; done.
Qed.

(** An entity label "5" and a related concept "2024年" reach the outputs:
    the label and related lists only pass the punctuation filter. *)
Lemma labels_keep_digit_tokens :
  (term_freq sample_unicode (sample_host (Responded digit_labels))
             (lit "x") fresh).1
  = Ok (∅, [lit "5"], [lit "2024" ++ [24180%N]])
  ∧ single_character (lit "5")
  ∧ pure_digits sample_unicode (lit "5")
  ∧ digits_and_unit sample_unicode (lit "2024" ++ [24180%N]).
Proof.
  split; [vm_compute; reflexivity |].
  split; [reflexivity |].
  split; [split; [done | by repeat constructor] |].
  exists (lit "2024"), 24180%N.
  split; [reflexivity |].
  split; [split; [done | by repeat constructor] | by left].
Qed.

(** C5 (amended). No token with a non-word character appears in any of the
    three outputs of [term_freq].  No single-character token, no pure-digit
    token and no digits-and-unit token appears in the frequency mapping. *)
Theorem term_freq_filters (U : UnicodeData) (H : Host) (text : str)
    (w : world) (c : gmap str Z) (i18n related : list str) :
  (term_freq U H text w).1 = Ok (c, i18n, related) →
  (∀ s, is_Some (c !! s) → ¬ excluded U s)
  ∧ (∀ s, s ∈ i18n → ¬ has_non_word U s)
  ∧ (∀ s, s ∈ related → ¬ has_non_word U s).
Proof.
  intros (dm & _ & Ha)%term_freq_Ok.
  apply analyse_Ok in Ha
    as (pd & il & rl & words & il' & rl' & _ & _ & Hw & Hi & Hr & -> & -> & ->).
  split; [| split].
  - intros s Hs. rewrite Counter_sorted_set_lookup in Hs.
    destruct (decide (s ∈ _remove_unless_words U words)) as [Hin |];
      [| by destruct Hs].
    apply remove_unless_words_elem in Hin as (Hin & Hlen & Hun).
    apply (remove_punctuation_elem _ _ _ _ Hw) in Hin as [_ Hp].
    apply punct_search_false in Hp.
    intros [Hnw | [Hone | Hdig]]; [done | | ].
    + unfold single_character in Hone. lia.
    + apply is_unwanted_excluded in Hdig. congruence.
  - intros s Hs. rewrite elem_of_sorted_set in Hs.
    apply (remove_punctuation_elem _ _ _ _ Hi) in Hs as [_ Hp].
    by apply punct_search_false.
  - intros s Hs. rewrite elem_of_sorted_set in Hs.
    apply (remove_punctuation_elem _ _ _ _ Hr) in Hs as [_ Hp].
    by apply punct_search_false.
Qed.

Lemma term_freq_filters_witness :
  (∀ s, is_Some (({[ lit "hello" := 1; [19990%N; 30028%N] := 1 ]}
                    : gmap str Z) !! s) →
        ¬ excluded sample_unicode s)
  ∧ (∀ s, s ∈ [[]; lit "place"] → ¬ has_non_word sample_unicode s)
  ∧ (∀ s, s ∈ [lit "capital"; lit "city"] → ¬ has_non_word sample_unicode s).
Proof.
  apply (term_freq_filters sample_unicode
           (sample_host (Responded (JDict sample_answer)))
           (lit "a fab day") fresh).
  vm_compute. reflexivity.
Defined.

Lemma survivors_elem U (strs : list json) (words : list str) s :
  _remove_punctuation U strs = Ok words →
  s ∈ sorted_set (_remove_unless_words U words)
  ↔ JStr s ∈ strs ∧ ¬ has_non_word U s
    ∧ (1 < length s)%nat ∧ is_unwanted U s = false.
Proof.
  intros Hw.
  rewrite elem_of_sorted_set, remove_unless_words_elem.
  rewrite (remove_punctuation_elem _ _ _ _ Hw), punct_search_false.
  naive_solver.
Qed.

(** C6. For a fixed segmentation response the outputs of [term_freq] are
    fixed: any run that gets the same response returns the same three
    values.  The frequency mapping is [Counter] over the token sequence the
    code builds: the strings of the word records that pass the punctuation
    filter and [_remove_unless_words], deduplicated and sorted.  That
    sequence has no duplicates, is in increasing order and holds exactly the
    surviving tokens, so every count in the mapping is 1. *)
Theorem term_freq_counts_one (U : UnicodeData) (H : Host) (text : str)
    (w : world) (c : gmap str Z) (i18n related : list str) :
  (term_freq U H text w).1 = Ok (c, i18n, related) →
  (∃ dm pd words tokens,
      dictionary H w (lit "meaningless") = Some dm
      ∧ _parse_texsmart_response
          (_call_texsmart_api H (request_text dm text)) = Ok pd
      ∧ _remove_punctuation U (w_str <$> word_list pd) = Ok words
      ∧ tokens = sorted_set (_remove_unless_words U words)
      ∧ c = Counter tokens
      ∧ NoDup tokens ∧ StronglySorted str_le tokens
      ∧ (∀ s, s ∈ tokens
              ↔ JStr s ∈ (w_str <$> word_list pd) ∧ ¬ has_non_word U s
                ∧ (1 < length s)%nat ∧ is_unwanted U s = false)
      ∧ (∀ s, c !! s = if decide (s ∈ tokens) then Some 1 else None))
  ∧ (∀ s n, c !! s = Some n → n = 1)
  ∧ (∀ H' text' w' dm dm',
       dictionary H w (lit "meaningless") = Some dm →
       dictionary H' w' (lit "meaningless") = Some dm' →
       _call_texsmart_api H' (request_text dm' text')
       = _call_texsmart_api H (request_text dm text) →
       (term_freq U H' text' w').1 = Ok (c, i18n, related)).
Proof.
  intros Hrun. split; [| split].
  - apply term_freq_Ok in Hrun as (dm & Hm & Ha).
    apply analyse_Ok in Ha
      as (pd & il & rl & words & il' & rl' & Hp & _ & Hw & _ & _ & -> & _ & _).
    exists dm, pd, words, (sorted_set (_remove_unless_words U words)).
    split; [done |]. split; [done |]. split; [done |]. split; [done |].
    split; [done |].
    split; [apply NoDup_sorted_set |].
    split; [apply StronglySorted_sorted_set |].
    split; [intros s; by apply survivors_elem |].
    intros s. apply Counter_NoDup_lookup, NoDup_sorted_set.
  - apply term_freq_Ok in Hrun as (dm & _ & Ha).
    apply analyse_Ok in Ha
      as (pd & il & rl & words & il' & rl' & _ & _ & _ & _ & _ & -> & _ & _).
    intros s n. rewrite Counter_sorted_set_lookup.
    destruct (decide _); congruence.
  - intros H' text' w' dm dm' Hm Hm' Hcall.
    rewrite term_freq_result, Hm in Hrun.
    by rewrite term_freq_result, Hm', Hcall.
Qed.

Lemma term_freq_counts_one_witness :
  ∃ dm pd words tokens,
    dictionary (sample_host (Responded (JDict sample_answer))) fresh
               (lit "meaningless") = Some dm
    ∧ _parse_texsmart_response
        (_call_texsmart_api (sample_host (Responded (JDict sample_answer)))
                            (request_text dm (lit "a fab day"))) = Ok pd
    ∧ _remove_punctuation sample_unicode (w_str <$> word_list pd) = Ok words
    ∧ tokens = sorted_set (_remove_unless_words sample_unicode words)
    ∧ ({[ lit "hello" := 1; [19990%N; 30028%N] := 1 ]} : gmap str Z)
      = Counter tokens
    ∧ NoDup tokens ∧ StronglySorted str_le tokens
    ∧ (∀ s, s ∈ tokens
            ↔ JStr s ∈ (w_str <$> word_list pd)
              ∧ ¬ has_non_word sample_unicode s
              ∧ (1 < length s)%nat ∧ is_unwanted sample_unicode s = false)
    ∧ (∀ s, ({[ lit "hello" := 1; [19990%N; 30028%N] := 1 ]} : gmap str Z)
            !! s
            = if decide (s ∈ tokens) then Some 1 else None).
Proof.
  refine (proj1 (term_freq_counts_one sample_unicode
           (sample_host (Responded (JDict sample_answer)))
           (lit "a fab day") fresh _ [[]; lit "place"]
           [lit "capital"; lit "city"] _)).
  vm_compute. reflexivity.
Defined.

(** ** The store of unrecognized words *)

(** C7. After [_save_unrecognized_words] the file holds the deduplicated,
    sorted union of the words it held before (none when the file was
    missing) and the words of this run; so no stored word is ever lost, and
    after two runs in a row the file holds the union of both runs' words and
    the earlier content. *)
Theorem save_unrecognized_union (words : list str) (w : world) :
  (_save_unrecognized_words words w).1 = Ok ()
  ∧ unrecognized_words_yaml (_save_unrecognized_words words w).2
    = Some {[ lit "unrecognized" := sorted_set (existing_words w ++ words) ]}
  ∧ NoDup (existing_words (_save_unrecognized_words words w).2)
  ∧ StronglySorted str_le
      (existing_words (_save_unrecognized_words words w).2)
  ∧ (∀ x, x ∈ existing_words (_save_unrecognized_words words w).2
          ↔ x ∈ existing_words w ∨ x ∈ words)
  ∧ (unrecognized_words_yaml w = None →
     existing_words (_save_unrecognized_words words w).2 = sorted_set words)
  ∧ (∀ x, x ∈ existing_words w →
          x ∈ existing_words (_save_unrecognized_words words w).2)
  ∧ (∀ words' x,
       x ∈ existing_words
             (_save_unrecognized_words words'
                (_save_unrecognized_words words w).2).2
       ↔ x ∈ existing_words w ∨ x ∈ words ∨ x ∈ words').
Proof.
  assert (∀ ws v, existing_words (_save_unrecognized_words ws v).2
                  = sorted_set (existing_words v ++ ws)) as Hsaved.
  { intros ws v. unfold _save_unrecognized_words, existing_words at 1.
    cbn [snd unrecognized_words_yaml]. by rewrite lookup_singleton_eq. }
  split; [done |]. split; [done |]. rewrite !Hsaved.
  split; [apply NoDup_sorted_set |].
  split; [apply StronglySorted_sorted_set |].
  split; [intros x; by rewrite elem_of_sorted_set, elem_of_app |].
  split; [intros Hnone; unfold existing_words; by rewrite Hnone |].
  split; [intros x Hx; rewrite elem_of_sorted_set, elem_of_app; by left |].
  intros words' x.
  rewrite Hsaved, elem_of_sorted_set, elem_of_app, Hsaved,
    elem_of_sorted_set, elem_of_app.
  naive_solver.
Qed.

(** ** The dictionary cache *)

Section Cache.
Variable U : UnicodeData.
Variable H : Host.



Lemma term_freq_state text w :
  (term_freq U H text w).2 = (_remove_meaningless H text w).2.
Proof.
  unfold term_freq. unfold bind at 1.
  destruct (_remove_meaningless H text w) as [[t | e] w1]; [| done].
  unfold bind, lift, ret.
  destruct (_parse_texsmart_response _) as [pd | e]; [| done]. simpl.
  destruct (collect_entities _ _ _) as [[il rl] | e]; [| done]. simpl.
  destruct (_remove_punctuation U (w_str <$> _)) as [ws | e]; [| done].
  simpl.
  destruct (_remove_punctuation U il) as [il' | e]; [| done]. simpl.
  by destruct (_remove_punctuation U rl) as [rl' | e].
Qed.

Lemma save_coherent words w :
  cache_coherent H w →
  cache_coherent H (_save_unrecognized_words words w).2.
Proof. done. Qed.




End Cache.




(** ** The counters of the sentiment report *)

(** C9. In every report [sentiment] returns, positive_num + negative_num is
    at most word_num, and the three are non-negative. *)
Theorem sentiment_counts_bounded (U : UnicodeData) (H : Host) (text : str)
    (w : world) (rd : result_dict) :
  (sentiment U H text w).1 = Ok rd →
  ∃ n, word_num rd = Some n
    ∧ positive_num rd + negative_num rd ≤ n
    ∧ 0 ≤ positive_num rd ∧ 0 ≤ negative_num rd ∧ 0 ≤ n.
Proof.
  rewrite sentiment_result. unfold sentiment_value.
  destruct (dictionary H w (lit "meaningless")) as [dm |]; [| done].
  destruct (dictionary H w (lit "positive")) as [dp |]; [| done].
  destruct (dictionary H w (lit "negative")) as [dn |]; [| done].
  destruct (phrase_tokens U _) as [words |]; [| done].
  cbn [mbind result_bind]. intros [= <-].
  unfold report. rewrite classify_spec.
  cbn [fst positive_num negative_num word_num].
  eexists. split; [done |].
  pose proof (filter_disjoint_length
                (counts_positive (entries "positive" dp))
                (counts_negative (entries "positive" dp)
                                 (entries "negative" dn)) words) as Hlen.
  split; [| lia]. apply Nat2Z.inj_le in Hlen; [lia |].
  intros x Hp [Hnp _]. done.
Qed.

Lemma sentiment_counts_bounded_witness :
  ∃ n, Some 3 = Some n ∧ 1 + 1 ≤ n ∧ 0 ≤ 1 ∧ 0 ≤ 1 ∧ 0 ≤ n.
Proof.
  exact (sentiment_counts_bounded sample_unicode
           (sample_host (Responded three_phrases)) (lit "a fab day") fresh
           {| positive_num := 1; negative_num := 1; word_num := Some 3 |}
           eq_refl).
Defined.

(** ** Entities without a label *)

Lemma for_each_elem {A B} (f : A → result B) (l : list A) : ∀ es x,
  for_each f l = Ok es → x ∈ l → ∃ e, f x = Ok e ∧ e ∈ es.
Proof.
  induction l as [|a l IH]; intros es x Hes Hx.
  - by apply elem_of_nil in Hx.
  - cbn [for_each] in Hes.
    destruct (f a) as [b |] eqn:Hfa; [| done].
    cbn [mbind result_bind] in Hes.
    destruct (for_each f l) as [bs |]; [| done].
    cbn [mbind result_bind] in Hes. injection Hes as <-.
    apply elem_of_cons in Hx as [-> | Hx].
    + exists b. split; [done | by left].
    + destruct (IH bs x eq_refl Hx) as (e & He & Hin).
      exists e. split; [done | by right].
Qed.

Lemma collect_entities_i18n entities : ∀ il rl il' rl',
  collect_entities entities il rl = Ok (il', rl') →
  il' = il ++ (e_i18n <$> entities).
Proof.
  induction entities as [|e entities IH]; intros il rl il' rl' Hc.
  - simplify_eq/=. by rewrite app_nil_r.
  - cbn [collect_entities] in Hc.
    destruct (py_iter (e_related e)) as [related |]; [| done].
    cbn [mbind result_bind] in Hc. apply IH in Hc as ->.
    by rewrite <- app_assoc.
Qed.

Lemma parse_entity_unlabelled ekvs ty e :
  assoc (lit "type") ekvs = Some (JDict ty) →
  assoc (lit "i18n") ty = None →
  parse_entity (JDict ekvs) = Ok e → e_i18n e = JStr [].
Proof.
  intros Hty Hi. unfold parse_entity, py_getitem, py_get.
  cbn [mbind result_bind]. rewrite Hty.
  destruct (assoc (lit "str") ekvs); [| done].
  destruct (assoc (lit "tag") ekvs); [| done].
  cbn [mbind result_bind]. rewrite Hi.
  destruct (default (JDict []) (assoc (lit "meaning") ekvs)); try done.
  cbn [mbind result_bind default]. by intros [= <-].
Qed.

Lemma parse_entity_list kvs pd es :
  _parse_texsmart_response (JDict kvs) = Ok pd →
  list_field "entity_list" kvs = Ok es →
  for_each parse_entity es = Ok (entity_list pd).
Proof.
  unfold _parse_texsmart_response, list_field, py_get.
  cbn [mbind result_bind]. intros Hp Hes.
  destruct (py_iter (default (JList []) (assoc (lit "word_list") kvs)));
    [| done].
  cbn [mbind result_bind] in Hp.
  destruct (for_each parse_word _); [| done].
  cbn [mbind result_bind] in Hp.
  destruct (py_iter (default (JList []) (assoc (lit "phrase_list") kvs)));
    [| done].
  cbn [mbind result_bind] in Hp.
  destruct (for_each parse_word _); [| done].
  cbn [mbind result_bind] in Hp. rewrite Hes in Hp.
  cbn [mbind result_bind] in Hp.
  destruct (for_each parse_entity es); [| done].
  cbn [mbind result_bind] in Hp. by injection Hp as <-.
Qed.

(** C10. When an entity of the response has a "type" object without an
    "i18n" key, its label is the empty string; the empty string passes the
    punctuation filter, which drops only tokens with a non-word character;
    and the empty string is an element of the label list [term_freq]
    returns. *)
Theorem empty_label_reaches_output (U : UnicodeData) (H : Host) (text : str)
    (w : world) (dm : gmap str (list str)) (kvs ekvs ty : list (str * json))
    (es : list json) (c : gmap str Z) (i18n related : list str) :
  (term_freq U H text w).1 = Ok (c, i18n, related) →
  dictionary H w (lit "meaningless") = Some dm →
  _call_texsmart_api H (request_text dm text) = JDict kvs →
  list_field "entity_list" kvs = Ok es →
  JDict ekvs ∈ es →
  assoc (lit "type") ekvs = Some (JDict ty) →
  assoc (lit "i18n") ty = None →
  (∀ e, parse_entity (JDict ekvs) = Ok e → e_i18n e = JStr [])
  ∧ punct_search U [] = false
  ∧ [] ∈ i18n.
Proof.
  intros Hrun Hm Hcall Hes Hin Hty Hi.
  split; [intros e; by apply parse_entity_unlabelled with ty |].
  split; [done |].
  rewrite term_freq_result, Hm, Hcall in Hrun.
  apply analyse_Ok in Hrun
    as (pd & il & rl & words & il' & rl' & Hp & Hc & _ & Hil & _ & _ & -> & _).
  apply elem_of_sorted_set. apply (remove_punctuation_elem _ _ _ _ Hil).
  split; [| done].
  pose proof (parse_entity_list _ _ _ Hp Hes) as Hfor.
  destruct (for_each_elem _ _ _ _ Hfor Hin) as (e & He & Hein).
  apply collect_entities_i18n in Hc as ->. cbn [app].
  rewrite <- (parse_entity_unlabelled ekvs ty e Hty Hi He).
  apply list_elem_of_fmap. by exists e.
Qed.

Lemma empty_label_reaches_output_witness :
  (∀ e, parse_entity (JDict unlabelled_entity) = Ok e → e_i18n e = JStr [])
  ∧ punct_search sample_unicode [] = false
  ∧ [] ∈ [[]; lit "place"].
Proof.
  apply (empty_label_reaches_output sample_unicode
           (sample_host (Responded (JDict sample_answer)))
           (lit "a fab day") fresh {[ lit "meaningless" := [lit "ab"] ]}
           sample_answer unlabelled_entity []
           [JDict [(lit "str", JStr (lit "Paris")); (lit "tag", JStr (lit "loc"));
                   (lit "type", JDict [(lit "i18n", JStr (lit "place"))]);
                   (lit "meaning",
                    JDict [(lit "related",
                            JList [JStr (lit "city"); JStr (lit "capital")])])];
            JDict unlabelled_entity]
           {[ lit "hello" := 1; [19990%N; 30028%N] := 1 ]}
           [[]; lit "place"] [lit "capital"; lit "city"]);
    try (vm_compute; reflexivity).
  right. left.
Defined.

(** * Further properties of the analyzer *)

(** ** The punctuation filter on strings *)

Global Instance has_non_word_dec U s : Decision (has_non_word U s).
Proof. unfold has_non_word. apply _. Defined.

Lemma remove_punctuation_fmap U (ws : list str) :
  _remove_punctuation U (JStr <$> ws)
  = Ok (filter (λ s, ¬ has_non_word U s) ws).
Proof.
  induction ws as [|word ws IH]; [done |].
  cbn [fmap list_fmap _remove_punctuation]. fold (fmap JStr ws).
  rewrite IH. cbn [mbind result_bind].
  destruct (punct_search U word) eqn:Hp.
  - rewrite filter_cons_False; [done |].
    intros Hnw. apply punct_search_false in Hnw. congruence.
  - rewrite filter_cons_True; [done |]. by apply punct_search_false.
Qed.

(** X3. On a list of strings [_remove_punctuation] never raises: it keeps
    exactly the strings without a non-word character, in their order and
    with their repetitions. *)
Theorem remove_punctuation_on_strings (U : UnicodeData) (ws : list str) :
  _remove_punctuation U (JStr <$> ws)
  = Ok (filter (λ s, ¬ has_non_word U s) ws).
Proof. apply remove_punctuation_fmap. Qed.

(** ** The unwanted patterns as regular expressions *)

Lemma all_digits_iff U s : all_digits U s = true ↔ pure_digits U s.
Proof.
  split; [| apply all_digits_pure].
  unfold all_digits, pure_digits. destruct s as [|c s]; [done |].
  intros Hall. split; [done |].
  apply Forall_forall. intros x Hx. rewrite forallb_forall in Hall.
  apply Hall. by apply list_elem_of_In.
Qed.

Lemma strip_final_newline_iff s ds :
  strip_final_newline s = Some ds ↔ s = ds ++ [10%N].
Proof.
  unfold strip_final_newline. split.
  - destruct (reverse s) as [|x r] eqn:Hrev; [done |].
    destruct (decide (x = 10%N)) as [-> | Hne].
    + intros [= <-]. rewrite <- (reverse_involutive s), Hrev.
      by rewrite reverse_cons.
    + destruct x as [|p]; [done |].
      do 5 (try (destruct p as [p | p |]; try done)).
  - intros ->. rewrite reverse_snoc. by rewrite reverse_involutive.
Qed.

Lemma digit_then_iff U unit s :
  digit_then U unit s = true
  ↔ ∃ pre d suf, s = pre ++ d :: unit :: suf ∧ isdecimal U d = true.
Proof.
  induction s as [|c s IH].
  - split; [done |]. intros (pre & d & suf & Hs & _). by destruct pre.
  - cbn [digit_then]. destruct s as [|c' s].
    + split; [done |]. intros (pre & d & suf & Hs & _).
      destruct pre as [|? [|? ?]]; discriminate.
    + rewrite orb_true_iff, andb_true_iff, N.eqb_eq, IH. split.
      * intros [[Hd ->] | (pre & d & suf & -> & Hd)].
        -- by exists [], c, s.
        -- by exists (c :: pre), d, suf.
      * intros (pre & d & suf & Hs & Hd). destruct pre as [|x pre].
        -- injection Hs as -> -> ->. by left.
        -- injection Hs as -> Hs. right. by exists pre, d, suf.
Qed.

(** X4. What [_remove_unless_words] treats as unwanted, spelled out from the
    five regular expressions: a token made of decimal digits only, possibly
    followed by one final newline, and any token in which a decimal digit is
    directly followed by one of the four unit characters, wherever that
    happens in the token (the four patterns are not anchored). *)
Theorem is_unwanted_iff (U : UnicodeData) (s : str) :
  is_unwanted U s = true
  ↔ pure_digits U s
    ∨ (∃ ds, s = ds ++ [10%N] ∧ pure_digits U ds)
    ∨ (∃ pre d unit suf, s = pre ++ d :: unit :: suf
         ∧ isdecimal U d = true ∧ unit ∈ unit_markers).
Proof.
  unfold is_unwanted, unwanted_patterns, unit_markers.
  cbn [existsb re_search]. rewrite !orb_true_iff, !digit_then_iff.
  rewrite all_digits_iff. split.
  - intros [[Hd | Hnl] | [Hu | [Hu | [Hu | [Hu | ?]]]]]; [by left | | | | | | done].
    + right; left. destruct (strip_final_newline s) as [ds |] eqn:Hs; [| done].
      exists ds. split; [by apply strip_final_newline_iff |].
      by apply all_digits_iff.
    + destruct Hu as (pre & d & suf & -> & Hd). right; right.
      exists pre, d, 24180%N, suf. repeat split; [done |]. set_solver.
    + destruct Hu as (pre & d & suf & -> & Hd). right; right.
      exists pre, d, 26376%N, suf. repeat split; [done |]. set_solver.
    + destruct Hu as (pre & d & suf & -> & Hd). right; right.
      exists pre, d, 26085%N, suf. repeat split; [done |]. set_solver.
    + destruct Hu as (pre & d & suf & -> & Hd). right; right.
      exists pre, d, 20998%N, suf. repeat split; [done |]. set_solver.
  - intros [Hd | [(ds & Hs & Hd) | (pre & d & unit & suf & -> & Hd & Hu)]].
    + left. by left.
    + left. right. apply strip_final_newline_iff in Hs. rewrite Hs.
      by apply all_digits_iff.
    + right. repeat (apply elem_of_cons in Hu as [-> | Hu]);
        [| | | | by apply elem_of_nil in Hu].
      * left. by exists pre, d, suf.
      * right; left. by exists pre, d, suf.
      * right; right; left. by exists pre, d, suf.
      * right; right; right; left. by exists pre, d, suf.
Qed.

(** ** What the normalizer can and cannot do *)

Lemma replace_scan_sublist old text : ∀ skip,
  replace_scan old [] text skip `sublist_of` text.
Proof.
  induction text as [|c rest IH]; intros skip; [done |].
  cbn [replace_scan]. destruct skip as [|k].
  - destruct (starts_with old (c :: rest)).
    + cbn [app]. by apply sublist_cons.
    + by apply sublist_skip.
  - by apply sublist_cons.
Qed.

Lemma str_replace_sublist text old :
  str_replace text old [] `sublist_of` text.
Proof.
  destruct old as [|o old]; [| apply replace_scan_sublist].
  rewrite str_replace_absent; done.
Qed.

Lemma strip_all_sublist meaningless : ∀ text,
  strip_all meaningless text `sublist_of` text.
Proof.
  unfold strip_all.
  induction meaningless as [|word l IH]; intros text; [done |].
  cbn [foldl]. etrans; [apply IH | apply str_replace_sublist].
Qed.

(** X5. The normalizer only deletes: the text it returns is the input with
    some code points left out, the others in their order, so it is never
    longer than the input. *)
Theorem normalizer_only_deletes (H : Host) (text t : str) (w : world) :
  (_remove_meaningless H text w).1 = Ok t →
  t `sublist_of` text ∧ (length t ≤ length text)%nat.
Proof.
  rewrite remove_meaningless_result.
  destruct (dictionary H w (lit "meaningless")) as [dm |]; [| done].
  intros [= <-].
  pose proof (strip_all_sublist (entries "meaningless" dm) text) as Hsub.
  split; [done | by apply sublist_length].
Qed.

Lemma normalizer_only_deletes_witness :
  lit "a f day" `sublist_of` lit "a fab day"
  ∧ (length (lit "a f day") ≤ length (lit "a fab day"))%nat.
Proof.
  exact (normalizer_only_deletes (sample_host OtherException)
           (lit "a fab day") (lit "a f day") fresh eq_refl).
Defined.

Lemma replace_single_absent c text :
  c ∉ replace_scan [c] [] text O.
Proof.
  induction text as [|x rest IH]; [by intros ?%elem_of_nil |].
  cbn [replace_scan starts_with length pred].
  destruct (N.eqb_spec c x) as [-> | Hne]; cbn [andb].
  - destruct rest; done.
  - destruct rest as [|y rest']; cbn [andb app];
      intros [? | ?]%elem_of_cons; done.
Qed.

(** A single-character phrase leaves none of its character behind, whatever
    the other phrases are. *)
Lemma strip_all_single_absent meaningless : ∀ text c,
  [c] ∈ meaningless → c ∉ strip_all meaningless text.
Proof.
  induction meaningless as [|word l IH]; intros text c Hin.
  - by apply elem_of_nil in Hin.
  - change (strip_all (word :: l) text)
      with (strip_all l (str_replace text word [])).
    destruct (decide ([c] ∈ l)) as [Hl | Hl]; [by apply IH |].
    apply elem_of_cons in Hin as [<- | ?]; [| done].
    intros Hc.
    apply (sublist_subseteq _ _ (strip_all_sublist l _)) in Hc.
    by apply (replace_single_absent c text).
Qed.

(** X6. When every meaningless phrase has at most one character, the
    normalizer is idempotent: none of those characters is left in the
    normalized text, and normalizing it again returns it unchanged. *)
Theorem single_character_phrases_idempotent (H : Host) (text : str)
    (w : world) (dm : gmap str (list str)) :
  dictionary H w (lit "meaningless") = Some dm →
  (∀ word, word ∈ entries "meaningless" dm → (length word ≤ 1)%nat) →
  (_remove_meaningless H text w).1 = Ok (request_text dm text)
  ∧ (_remove_meaningless H (request_text dm text)
       (_remove_meaningless H text w).2).1 = Ok (request_text dm text)
  ∧ (∀ c, [c] ∈ entries "meaningless" dm → c ∉ request_text dm text).
Proof.
  intros Hm Hlen.
  assert (∀ c, [c] ∈ entries "meaningless" dm → c ∉ request_text dm text)
    as Habsent by (intros c; apply strip_all_single_absent).
  split; [by rewrite remove_meaningless_result, Hm |].
  split; [| done].
  rewrite remove_meaningless_result, remove_meaningless_dictionary, Hm.
  f_equal. apply (strip_all_clean (entries "meaningless" dm)).
  intros word Hin Hne (a & b & Hsub).
  specialize (Hlen word Hin).
  destruct word as [|c [|? ?]]; [done | | simpl in Hlen; lia].
  apply (Habsent c Hin). rewrite Hsub. set_solver.
Qed.

Lemma single_character_phrases_idempotent_witness :
  (_remove_meaningless (filler_host OtherException) (lit "a, b c") fresh).1
  = Ok (lit "abc")
  ∧ (_remove_meaningless (filler_host OtherException) (lit "abc")
       (_remove_meaningless (filler_host OtherException) (lit "a, b c")
                            fresh).2).1 = Ok (lit "abc")
  ∧ (∀ c, [c] ∈ [lit ","; []; lit " "] → c ∉ lit "abc").
Proof.
  apply (single_character_phrases_idempotent (filler_host OtherException)
           (lit "a, b c") fresh {[ lit "meaningless" := [lit ","; []; lit " "] ]}
           eq_refl).
  intros word Hin.
  repeat (apply elem_of_cons in Hin as [-> | Hin]); try (vm_compute; lia).
  by apply elem_of_nil in Hin.
Defined.

(** ** What the methods do to the state *)

Section Effects.
Variable U : UnicodeData.
Variable H : Host.

(** Whatever loads and saves preserve, [sentiment] preserves. *)
Lemma sentiment_preserves (P : world → Prop) text w :
  (∀ f v, P v → P (_load_yaml_dict H f v).2) →
  (∀ ws v, P v → P (_save_unrecognized_words ws v).2) →
  P w → P (sentiment U H text w).2.
Proof.
  intros Hload Hsave Hw. unfold sentiment. unfold bind at 1.
  pose proof (Hload (lit "meaningless") w Hw) as H1.
  rewrite <- remove_meaningless_state with (text := text) in H1.
  destruct (_remove_meaningless H text w) as [[t | e] w1]; [| done].
  simpl in H1. unfold bind at 1.
  pose proof (Hload (lit "positive") w1 H1) as H2.
  destruct (_load_yaml_dict H (lit "positive") w1) as [[dp | e] w2]; [| done].
  simpl in H2. unfold bind at 1.
  pose proof (Hload (lit "negative") w2 H2) as H3.
  destruct (_load_yaml_dict H (lit "negative") w2) as [[dn | e] w3]; [| done].
  simpl in H3. unfold bind, lift, ret.
  destruct (_parse_texsmart_response _) as [pd | e]; [| done]. simpl.
  destruct (_remove_punctuation U _) as [ws | e]; [| done]. simpl.
  destruct (classify _ _ ws) as [rd out]. simpl. by apply Hsave.
Qed.

Lemma run_preserves (P : world → Prop) calls :
  (∀ f v, P v → P (_load_yaml_dict H f v).2) →
  (∀ ws v, P v → P (_save_unrecognized_words ws v).2) →
  ∀ w, P w → P (run U H calls w).
Proof.
  intros Hload Hsave.
  induction calls as [|c calls IH]; intros w Hw; [done |].
  apply IH. destruct c as [file | text | text]; simpl.
  - by apply Hload.
  - rewrite term_freq_state, remove_meaningless_state. by apply Hload.
  - by apply sentiment_preserves.
Qed.

Lemma saved_words ws v :
  existing_words (_save_unrecognized_words ws v).2
  = sorted_set (existing_words v ++ ws).
Proof.
  unfold _save_unrecognized_words, existing_words at 1.
  cbn [snd unrecognized_words_yaml]. by rewrite lookup_singleton_eq.
Qed.

Lemma loaded_words f v :
  existing_words (_load_yaml_dict H f v).2 = existing_words v.
Proof. unfold existing_words. by rewrite load_file. Qed.

Lemma run_dictionary calls w g :
  dictionary H (run U H calls w) g = dictionary H w g.
Proof.
  apply (run_preserves (λ v, dictionary H v g = dictionary H w g)); [| | done].
  - intros f v Hv. by rewrite load_dictionary.
  - intros ws v Hv. exact Hv.
Qed.

End Effects.

Lemma sentiment_file_cases (U : UnicodeData) (H : Host) (text : str)
    (w : world) :
  match (sentiment U H text w).1 with
  | Raise _ =>
      unrecognized_words_yaml (sentiment U H text w).2
      = unrecognized_words_yaml w
  | Ok _ =>
      ∃ bucket,
        unrecognized_words_yaml (sentiment U H text w).2
        = Some {[ lit "unrecognized" :=
                    sorted_set (existing_words w ++ bucket) ]}
  end.
Proof.
  destruct (sentiment U H text w) as [r w'] eqn:E. cbn [fst snd].
  unfold sentiment in E. unfold bind at 1 in E.
  pose proof (remove_meaningless_file H text w) as Hf1.
  destruct (_remove_meaningless H text w) as [[t | e] w1]; simpl in Hf1;
    [| by simplify_eq].
  unfold bind at 1 in E.
  pose proof (load_file H (lit "positive") w1) as Hf2.
  destruct (_load_yaml_dict H (lit "positive") w1) as [[dp | e] w2];
    simpl in Hf2; [| simplify_eq; congruence].
  unfold bind at 1 in E.
  pose proof (load_file H (lit "negative") w2) as Hf3.
  destruct (_load_yaml_dict H (lit "negative") w2) as [[dn | e] w3];
    simpl in Hf3; [| simplify_eq; congruence].
  unfold bind, lift, ret in E.
  destruct (_parse_texsmart_response _) as [pd | e]; simpl in E;
    [| simplify_eq; congruence].
  destruct (_remove_punctuation U _) as [ws | e]; simpl in E;
    [| simplify_eq; congruence].
  destruct (classify _ _ ws) as [rd out]. simpl in E. injection E as <- <-.
  exists (unrecognized out). cbn [unrecognized_words_yaml].
  unfold existing_words. by rewrite Hf3, Hf2, Hf1.
Qed.

(** X7. [sentiment] writes the YAML file only when it returns: a call that
    raises leaves the file as it was, and a call that returns leaves the
    single mapping unrecognized -> sorted(set(old words + bucket)), where
    the bucket is the unrecognized bucket of this run: the one the loop
    fills from the surviving phrase tokens and the loaded positive and
    negative lists. *)
Theorem sentiment_file_effect (U : UnicodeData) (H : Host) (text : str)
    (w : world) :
  match (sentiment U H text w).1 with
  | Raise _ =>
      unrecognized_words_yaml (sentiment U H text w).2
      = unrecognized_words_yaml w
  | Ok _ =>
      ∃ dm dp dn words,
        dictionary H w (lit "meaningless") = Some dm
        ∧ dictionary H w (lit "positive") = Some dp
        ∧ dictionary H w (lit "negative") = Some dn
        ∧ phrase_tokens U (_call_texsmart_api H (request_text dm text))
          = Ok words
        ∧ unrecognized_words_yaml (sentiment U H text w).2
          = Some {[ lit "unrecognized" :=
                      sorted_set
                        (existing_words w ++
                         unrecognized
                           (classify (entries "positive" dp)
                                     (entries "negative" dn) words).2) ]}
  end.
Proof.
  pose proof (sentiment_file_cases U H text w) as Hcases.
  pose proof (sentiment_result U H text w) as Hres.
  destruct (sentiment U H text w).1 as [rd | e]; [| exact Hcases].
  unfold sentiment_value in Hres.
  destruct (dictionary H w (lit "meaningless")) as [dm |] eqn:Hm; [| done].
  destruct (dictionary H w (lit "positive")) as [dp |] eqn:Hp; [| done].
  destruct (dictionary H w (lit "negative")) as [dn |] eqn:Hn; [| done].
  destruct (phrase_tokens U _) as [words |] eqn:Htok; [| done].
  exists dm, dp, dn, words. repeat split; try done.
  exact (sentiment_file U H text w dm dp dn words Hm Hp Hn Htok).
Qed.

(** X8. The only effect of [term_freq] on the state is the load of the
    meaningless dictionary; it never touches the file of unrecognized
    words. *)
Theorem term_freq_effect (U : UnicodeData) (H : Host) (text : str)
    (w : world) :
  (term_freq U H text w).2 = (_load_yaml_dict H (lit "meaningless") w).2
  ∧ unrecognized_words_yaml (term_freq U H text w).2
    = unrecognized_words_yaml w.
Proof.
  rewrite term_freq_state, remove_meaningless_state.
  split; [done | apply load_file].
Qed.

(** X9. Whatever calls a process makes, in whatever order and whether they
    return or raise, a word once in the file of unrecognized words stays in
    it. *)
Theorem store_never_shrinks (U : UnicodeData) (H : Host) (calls : list call)
    (w : world) (x : str) :
  x ∈ existing_words w → x ∈ existing_words (run U H calls w).
Proof.
  intros Hx.
  apply (run_preserves U H (λ v, x ∈ existing_words v)); [| | done].
  - intros f v Hv. by rewrite loaded_words.
  - intros ws v Hv. rewrite saved_words, elem_of_sorted_set, elem_of_app.
    by left.
Qed.

Lemma store_never_shrinks_witness :
  lit "neutral"
  ∈ existing_words
      (run sample_unicode (sample_host RequestException)
           [Sentiment (lit "x"); TermFreq (lit "y"); Load (lit "slang")]
           (_save_unrecognized_words [lit "neutral"] fresh).2).
Proof.
  apply (store_never_shrinks sample_unicode (sample_host RequestException)
           [Sentiment (lit "x"); TermFreq (lit "y"); Load (lit "slang")]
           (_save_unrecognized_words [lit "neutral"] fresh).2
           (lit "neutral")).
  vm_compute. by left.
Defined.

(** X10. What [term_freq] and [sentiment] return does not depend on the
    calls made before: neither the content of the cache nor the file of
    unrecognized words changes a result. *)
Theorem results_independent_of_history (U : UnicodeData) (H : Host)
    (calls : list call) (text : str) (w : world) :
  (term_freq U H text (run U H calls w)).1 = (term_freq U H text w).1
  ∧ (sentiment U H text (run U H calls w)).1 = (sentiment U H text w).1.
Proof.
  split.
  - by rewrite !term_freq_result, run_dictionary.
  - rewrite !sentiment_result. unfold sentiment_value.
    by rewrite !run_dictionary.
Qed.

(** X11. The cache never drops or replaces an entry: data cached under a
    name stays under it through every later call. *)
Theorem cache_entries_persist (U : UnicodeData) (H : Host)
    (calls : list call) (w : world) (file : str)
    (data : gmap str (list str)) :
  LOADED_DICTIONARIES w !! file = Some data →
  LOADED_DICTIONARIES (run U H calls w) !! file = Some data.
Proof.
  intros Hc.
  apply (run_preserves U H
           (λ v, LOADED_DICTIONARIES v !! file = Some data)); [| | done].
  - intros g v Hv. unfold _load_yaml_dict, bind, ConfigManager_load.
    destruct (LOADED_DICTIONARIES v !! g) as [d |] eqn:Hg; [done |].
    destruct (load_config H g); [| done]. simpl.
    rewrite lookup_insert_ne; [done | congruence].
  - intros ws v Hv. exact Hv.
Qed.

Lemma cache_entries_persist_witness :
  LOADED_DICTIONARIES
    (run sample_unicode (sample_host RequestException)
         [Sentiment (lit "x"); Load (lit "positive"); TermFreq (lit "y")]
         (_load_yaml_dict (sample_host RequestException) (lit "negative")
                          fresh).2)
  !! lit "negative"
  = Some {[ lit "negative" := [lit "bad"] ]}.
Proof.
  apply (cache_entries_persist sample_unicode (sample_host RequestException)
           [Sentiment (lit "x"); Load (lit "positive"); TermFreq (lit "y")]).
  vm_compute. reflexivity.
Defined.

(** X12. A load whose source fails raises, caches nothing and is not
    remembered: the next load of the same name reads the source again. *)
Theorem failed_load_is_retried (H : Host) (file : str) (w : world) :
  load_config H file = None →
  LOADED_DICTIONARIES w !! file = None →
  (_load_yaml_dict H file w).1 = Raise ConfigError
  ∧ LOADED_DICTIONARIES (_load_yaml_dict H file w).2 = LOADED_DICTIONARIES w
  ∧ (_load_yaml_dict H file (_load_yaml_dict H file w).2).1
    = Raise ConfigError
  ∧ reads_of file (_load_yaml_dict H file (_load_yaml_dict H file w).2).2
    = (reads_of file w + 2)%nat.
Proof.
  intros Hl Hc.
  assert (_load_yaml_dict H file w
          = (Raise ConfigError,
             {| LOADED_DICTIONARIES := LOADED_DICTIONARIES w;
                unrecognized_words_yaml := unrecognized_words_yaml w;
                config_reads := file :: config_reads w |})) as Hfirst.
  { unfold _load_yaml_dict, bind, ConfigManager_load. by rewrite Hc, Hl. }
  rewrite Hfirst. cbn [fst snd LOADED_DICTIONARIES].
  split; [done |]. split; [done |].
  unfold _load_yaml_dict, bind, ConfigManager_load.
  cbn [LOADED_DICTIONARIES config_reads unrecognized_words_yaml].
  rewrite Hc, Hl. cbn [fst snd]. split; [done |].
  unfold reads_of. cbn [config_reads].
  rewrite !filter_cons_True by done. simpl. lia.
Qed.

Lemma failed_load_is_retried_witness :
  (_load_yaml_dict (sample_host RequestException) (lit "slang") fresh).1
  = Raise ConfigError
  ∧ LOADED_DICTIONARIES
      (_load_yaml_dict (sample_host RequestException) (lit "slang") fresh).2
    = LOADED_DICTIONARIES fresh
  ∧ (_load_yaml_dict (sample_host RequestException) (lit "slang")
       (_load_yaml_dict (sample_host RequestException) (lit "slang")
                        fresh).2).1
    = Raise ConfigError
  ∧ reads_of (lit "slang")
      (_load_yaml_dict (sample_host RequestException) (lit "slang")
         (_load_yaml_dict (sample_host RequestException) (lit "slang")
                          fresh).2).2
    = (reads_of (lit "slang") fresh + 2)%nat.
Proof.
  exact (failed_load_is_retried (sample_host RequestException) (lit "slang")
           fresh eq_refl eq_refl).
Defined.

(** ** Answers the parser and the pipelines reject *)

(** X1. When the service answers with JSON that is not an object (a list, a
    string, a number, null), the answer is passed on as it is and both
    [term_freq] and [sentiment] raise AttributeError: unlike a failed call,
    this is not turned into an empty result. *)
Theorem non_object_response_raises (U : UnicodeData) (H : Host) (text : str)
    (w : world) (dm : gmap str (list str)) (body : json) :
  dictionary H w (lit "meaningless") = Some dm →
  post H (request_text dm text) = Responded body →
  (∀ kvs, body ≠ JDict kvs) →
  (term_freq U H text w).1 = Raise AttributeError
  ∧ (∀ dp dn,
       dictionary H w (lit "positive") = Some dp →
       dictionary H w (lit "negative") = Some dn →
       (sentiment U H text w).1 = Raise AttributeError).
Proof.
  intros Hm Hpost Hbody.
  assert (_call_texsmart_api H (request_text dm text) = body) as Hcall.
  { unfold _call_texsmart_api. by rewrite Hpost. }
  assert (_parse_texsmart_response body = Raise AttributeError) as Hparse.
  { destruct body; try done. by destruct (Hbody kvs). }
  split.
  - rewrite term_freq_result, Hm, Hcall. unfold analyse. by rewrite Hparse.
  - intros dp dn Hp Hn. rewrite sentiment_result. unfold sentiment_value.
    rewrite Hm, Hp, Hn, Hcall. unfold phrase_tokens. by rewrite Hparse.
Qed.

Lemma non_object_response_raises_witness :
  (term_freq sample_unicode (sample_host (Responded (JList [])))
             (lit "a fab day") fresh).1 = Raise AttributeError.
Proof.
  refine (proj1 (non_object_response_raises sample_unicode
           (sample_host (Responded (JList []))) (lit "a fab day") fresh
           {[ lit "meaningless" := [lit "ab"] ]} (JList [])
           eq_refl eq_refl _)).
  intros kvs. discriminate.
Defined.

Lemma for_each_first_raise {A B} (f : A → result B) good bad rest e :
  (∀ x, x ∈ good → ∃ y, f x = Ok y) →
  f bad = Raise e →
  for_each f (good ++ bad :: rest) = Raise e.
Proof.
  intros Hgood Hbad. induction good as [|x good IH].
  - cbn [app for_each]. by rewrite Hbad.
  - cbn [app for_each]. destruct (Hgood x) as [y Hy]; [by left |].
    rewrite Hy. cbn [mbind result_bind]. rewrite IH; [done |].
    intros z Hz. apply Hgood. by right.
Qed.

(** X2. An entity record without a "type" key makes the parser raise
    KeyError, even though a missing "meaning" next to it is defaulted: the
    records before it are normalized, then the whole response is lost. *)
Theorem entity_without_type_raises (kvs ekvs : list (str * json))
    (ws ps good rest : list json) :
  list_field "word_list" kvs = Ok ws →
  list_field "phrase_list" kvs = Ok ps →
  list_field "entity_list" kvs = Ok (good ++ JDict ekvs :: rest) →
  Forall word_ok ws → Forall word_ok ps → Forall entity_ok good →
  is_Some (assoc (lit "str") ekvs) →
  is_Some (assoc (lit "tag") ekvs) →
  assoc (lit "type") ekvs = None →
  _parse_texsmart_response (JDict kvs) = Raise KeyError.
Proof.
  unfold list_field. intros Hws Hps Hes Hwok Hpok Hgood [s Hs] [t Ht] Hty.
  destruct (for_each_ok _ _ _ ws parse_word_ok Hwok) as (wl & Hwl & _).
  destruct (for_each_ok _ _ _ ps parse_word_ok Hpok) as (pl & Hpl & _).
  assert (for_each parse_entity (good ++ JDict ekvs :: rest) = Raise KeyError)
    as Hel.
  { apply for_each_first_raise.
    - intros x Hx. rewrite Forall_forall in Hgood.
      destruct (parse_entity_ok x (Hgood x Hx)) as (e & He & _). eauto.
    - unfold parse_entity, py_get, py_getitem. cbn [mbind result_bind].
      by rewrite Hs, Ht, Hty. }
  unfold _parse_texsmart_response, py_get. cbn [mbind result_bind].
  rewrite Hws. cbn [mbind result_bind]. rewrite Hwl. cbn [mbind result_bind].
  rewrite Hps. cbn [mbind result_bind]. rewrite Hpl. cbn [mbind result_bind].
  rewrite Hes. cbn [mbind result_bind]. by rewrite Hel.
Qed.

Lemma entity_without_type_raises_witness :
  _parse_texsmart_response (JDict untyped_answer) = Raise KeyError.
Proof.
  apply (entity_without_type_raises untyped_answer untyped_entity
           [] [] [JDict unlabelled_entity] []);
    try reflexivity; try (by eexists); repeat constructor.
  exists unlabelled_entity, [].
  repeat split; try reflexivity; eexists; reflexivity.
Defined.

Lemma remove_punctuation_raise_kind U words e :
  _remove_punctuation U words = Raise e → e = TypeError.
Proof.
  induction words as [|word words IH]; [done |].
  destruct word; cbn [_remove_punctuation]; try by intros [= <-].
  destruct (_remove_punctuation U words); [done |].
  cbn [mbind result_bind]. intros [= <-]. by apply IH.
Qed.

Lemma remove_punctuation_non_string U words j :
  j ∈ words → (∀ s, j ≠ JStr s) →
  _remove_punctuation U words = Raise TypeError.
Proof.
  intros Hin Hj. induction words as [|word words IH];
    [by apply elem_of_nil in Hin |].
  apply elem_of_cons in Hin as [<- | Hin].
  - destruct j; try done. by destruct (Hj s).
  - destruct word; cbn [_remove_punctuation]; try done.
    by rewrite IH.
Qed.

Lemma collect_entities_raise_kind entities : ∀ il rl e,
  collect_entities entities il rl = Raise e → e = TypeError.
Proof.
  induction entities as [|entity entities IH]; intros il rl e; [done |].
  cbn [collect_entities].
  destruct (py_iter (e_related entity)) as [related | e'] eqn:Hit.
  - cbn [mbind result_bind]. apply IH.
  - cbn [mbind result_bind]. intros [= <-].
    destruct (e_related entity); simpl in Hit; congruence.
Qed.

(** X16. Once the answer has been parsed, the only exception [term_freq]
    can still raise is TypeError, and it does raise it when the "str" of a
    word is not a string. *)
Theorem term_freq_type_errors (U : UnicodeData) (H : Host) (text : str)
    (w : world) (dm : gmap str (list str)) (pd : parsed) :
  dictionary H w (lit "meaningless") = Some dm →
  _parse_texsmart_response (_call_texsmart_api H (request_text dm text))
    = Ok pd →
  (∀ e, (term_freq U H text w).1 = Raise e → e = TypeError)
  ∧ ((∃ we, we ∈ word_list pd ∧ ∀ s, w_str we ≠ JStr s) →
     (term_freq U H text w).1 = Raise TypeError).
Proof.
  intros Hm Hp. rewrite term_freq_result, Hm. unfold analyse. rewrite Hp.
  cbn [mbind result_bind]. split.
  - intros e.
    destruct (collect_entities _ _ _) as [[il rl] | e1] eqn:Hc;
      cbn [mbind result_bind fst snd].
    + destruct (_remove_punctuation U (w_str <$> _)) as [ws | e2] eqn:Hw;
        cbn [mbind result_bind].
      * destruct (_remove_punctuation U il) as [il' | e3] eqn:Hi;
          cbn [mbind result_bind].
        -- destruct (_remove_punctuation U rl) as [rl' | e4] eqn:Hr;
             cbn [mbind result_bind]; [done |].
           intros [= <-]. by apply remove_punctuation_raise_kind in Hr.
        -- intros [= <-]. by apply remove_punctuation_raise_kind in Hi.
      * intros [= <-]. by apply remove_punctuation_raise_kind in Hw.
    + intros [= <-]. by apply collect_entities_raise_kind in Hc.
  - intros (we & Hin & Hwe).
    destruct (collect_entities _ _ _) as [[il rl] | e1] eqn:Hc;
      cbn [mbind result_bind fst snd].
    + assert (_remove_punctuation U (w_str <$> word_list pd)
              = Raise TypeError) as ->; [| done].
      apply remove_punctuation_non_string with (w_str we); [| done].
      by apply list_elem_of_fmap_2.
    + by apply collect_entities_raise_kind in Hc as ->.
Qed.

Lemma term_freq_type_errors_witness :
  (term_freq sample_unicode (sample_host (Responded numeric_word))
             (lit "a fab day") fresh).1 = Raise TypeError.
Proof.
  refine (proj2 (term_freq_type_errors sample_unicode
           (sample_host (Responded numeric_word)) (lit "a fab day") fresh
           {[ lit "meaningless" := [lit "ab"] ]}
           {| word_list := [ {| w_str := JNum 7; w_tag := JStr (lit "m") |} ];
              phrase_list := []; entity_list := [] |}
           eq_refl eq_refl) _).
  exists {| w_str := JNum 7; w_tag := JStr (lit "m") |}.
  split; [by left | done].
Defined.

(** ** The buckets of the sentiment loop *)

Lemma filter_three_way {A} (P Q R : A → Prop)
    `{∀ x, Decision (P x)} `{∀ x, Decision (Q x)} `{∀ x, Decision (R x)}
    (l : list A) :
  (∀ x, (P x ∧ ¬ Q x ∧ ¬ R x) ∨ (¬ P x ∧ Q x ∧ ¬ R x)
        ∨ (¬ P x ∧ ¬ Q x ∧ R x)) →
  (length (filter P l) + length (filter Q l) + length (filter R l)
   = length l)%nat.
Proof.
  intros Hone. induction l as [|x l IH]; [done |].
  rewrite !filter_cons.
  destruct (decide (P x)), (decide (Q x)), (decide (R x)); simpl;
    try lia; exfalso; destruct (Hone x) as [? | [? | ?]]; naive_solver.
Qed.

Lemma counts_exactly_one pos neg token :
  (counts_positive pos token ∧ ¬ counts_negative pos neg token
   ∧ ¬ counts_unrecognized pos neg token)
  ∨ (¬ counts_positive pos token ∧ counts_negative pos neg token
     ∧ ¬ counts_unrecognized pos neg token)
  ∨ (¬ counts_positive pos token ∧ ¬ counts_negative pos neg token
     ∧ counts_unrecognized pos neg token).
Proof.
  unfold counts_positive, counts_negative, counts_unrecognized.
  destruct (decide (token ∈ pos)),
    (decide (Exists (λ entry, substring entry token) neg)); naive_solver.
Qed.

Lemma sorted_set_length xs : (length (sorted_set xs) ≤ length xs)%nat.
Proof.
  apply submseteq_length, NoDup_submseteq; [apply NoDup_sorted_set |].
  intros x. by rewrite elem_of_sorted_set.
Qed.

(** X13. The loop of [sentiment] puts every token into exactly one bucket:
    the number of tokens is positive_num + negative_num + the number of
    unrecognized occurrences; the two counters are the sizes of their
    buckets; and the unrecognized bucket, being deduplicated, lists each
    unrecognized token once. *)
Theorem classify_partition (pos neg words : list str) :
  Z.of_nat (length words)
  = positive_num (classify pos neg words).1
    + negative_num (classify pos neg words).1
    + Z.of_nat (length (filter (counts_unrecognized pos neg) words))
  ∧ positive_num (classify pos neg words).1
    = Z.of_nat (length (positive (classify pos neg words).2))
  ∧ negative_num (classify pos neg words).1
    = Z.of_nat (length (negative (classify pos neg words).2))
  ∧ (length (unrecognized (classify pos neg words).2)
     ≤ length (filter (counts_unrecognized pos neg) words))%nat
  ∧ NoDup (unrecognized (classify pos neg words).2)
  ∧ (∀ x, x ∈ unrecognized (classify pos neg words).2
          ↔ x ∈ words ∧ counts_unrecognized pos neg x).
Proof.
  rewrite classify_spec.
  cbn [fst snd positive_num negative_num positive negative unrecognized].
  pose proof (filter_three_way (counts_positive pos)
                (counts_negative pos neg) (counts_unrecognized pos neg)
                words (counts_exactly_one pos neg)) as Hsum.
  split; [lia |]. split; [done |]. split; [done |].
  split; [apply sorted_set_length |].
  split; [apply NoDup_sorted_set |].
  intros x. rewrite elem_of_sorted_set, list_elem_of_filter. naive_solver.
Qed.

(** X14. A blank entry in the negative dictionary matches every token,
    the empty string being a substring of any string: no token is left
    unrecognized, and every token that is not positive counts as negative. *)
Theorem blank_negative_entry (pos neg words : list str) :
  [] ∈ neg →
  unrecognized (classify pos neg words).2 = []
  ∧ positive_num (classify pos neg words).1
    + negative_num (classify pos neg words).1
    = Z.of_nat (length words).
Proof.
  intros Hblank.
  assert (filter (counts_unrecognized pos neg) words = []) as Hnone.
  { induction words as [|word words IH]; [done |].
    rewrite filter_cons_False; [done |].
    intros [_ Hno]. apply Hno. apply Exists_exists.
    exists []. split; [done |]. by exists [], word. }
  pose proof (filter_three_way (counts_positive pos)
                (counts_negative pos neg) (counts_unrecognized pos neg)
                words (counts_exactly_one pos neg)) as Hsum.
  rewrite Hnone in Hsum. rewrite classify_spec.
  cbn [fst snd positive_num negative_num unrecognized].
  rewrite Hnone. split; [done | simpl in Hsum; lia].
Qed.

Lemma blank_negative_entry_witness :
  unrecognized
    (classify [lit "good"] [lit "bad"; []] [lit "good"; lit "neutral"]).2 = []
  ∧ positive_num
      (classify [lit "good"] [lit "bad"; []] [lit "good"; lit "neutral"]).1
    + negative_num
        (classify [lit "good"] [lit "bad"; []] [lit "good"; lit "neutral"]).1
    = Z.of_nat (length [lit "good"; lit "neutral"]).
Proof.
  apply (blank_negative_entry [lit "good"] [lit "bad"; []]
           [lit "good"; lit "neutral"]).
  right. left.
Defined.

(** ** What [term_freq] keeps *)

Lemma collect_entities_related entities : ∀ il rl il' rl',
  collect_entities entities il rl = Ok (il', rl') →
  ∀ j, j ∈ rl'
       ↔ j ∈ rl ∨ ∃ e items, e ∈ entities
                    ∧ py_iter (e_related e) = Ok items ∧ j ∈ items.
Proof.
  induction entities as [|e entities IH]; intros il rl il' rl' Hc j.
  - simplify_eq/=. split; [by left |].
    intros [? | (e & items & Hin & _)]; [done | by apply elem_of_nil in Hin].
  - cbn [collect_entities] in Hc.
    destruct (py_iter (e_related e)) as [related |] eqn:Hit; [| done].
    cbn [mbind result_bind] in Hc.
    rewrite (IH _ _ _ _ Hc j), elem_of_app. split.
    + intros [[? | ?] | (e' & items & Hin & He' & Hj)].
      * by left.
      * right. exists e, related. split; [by left | done].
      * right. exists e', items. split; [by right | done].
    + intros [? | (e' & items & Hin & He' & Hj)]; [by left; left |].
      apply elem_of_cons in Hin as [-> | Hin].
      * left; right. congruence.
      * right. by exists e', items.
Qed.

(** X15. What [term_freq] returns is exactly what passes its filters: a word
    is a key of the frequency mapping if and only if it is the string of
    some word record, has no non-word character, is longer than one
    character and matches no unwanted pattern; a label or a related concept
    is returned if and only if it occurs in some entity and has no non-word
    character. *)
Theorem term_freq_keeps_survivors (U : UnicodeData) (H : Host) (text : str)
    (w : world) (dm : gmap str (list str)) (pd : parsed) (c : gmap str Z)
    (i18n related : list str) :
  dictionary H w (lit "meaningless") = Some dm →
  _parse_texsmart_response (_call_texsmart_api H (request_text dm text))
    = Ok pd →
  (term_freq U H text w).1 = Ok (c, i18n, related) →
  (∀ s, is_Some (c !! s)
        ↔ JStr s ∈ (w_str <$> word_list pd) ∧ ¬ has_non_word U s
          ∧ (1 < length s)%nat ∧ is_unwanted U s = false)
  ∧ (∀ s, s ∈ i18n
          ↔ JStr s ∈ (e_i18n <$> entity_list pd) ∧ ¬ has_non_word U s)
  ∧ (∀ s, s ∈ related
          ↔ (∃ e items, e ∈ entity_list pd
               ∧ py_iter (e_related e) = Ok items ∧ JStr s ∈ items)
            ∧ ¬ has_non_word U s).
Proof.
  intros Hm Hp Hrun. rewrite term_freq_result, Hm in Hrun.
  apply analyse_Ok in Hrun
    as (pd' & il & rl & words & il' & rl' & Hp' & Hc & Hw & Hi & Hr
        & -> & -> & ->).
  rewrite Hp in Hp'. injection Hp' as <-.
  pose proof (collect_entities_i18n _ _ _ _ _ Hc) as Hil. cbn [app] in Hil.
  subst il.
  pose proof (collect_entities_related _ _ _ _ _ Hc) as Hrl.
  split; [| split].
  - intros s. rewrite Counter_sorted_set_lookup.
    destruct (decide (s ∈ _remove_unless_words U words)) as [Hin | Hin].
    + split; [intros _ | by eauto].
      apply remove_unless_words_elem in Hin as (Hin & Hlen & Hun).
      apply (remove_punctuation_elem _ _ _ _ Hw) in Hin as [Hin Hps].
      by rewrite <- punct_search_false.
    + split; [by intros [? ?] |]. intros (Hs & Hnw & Hlen & Hun).
      exfalso. apply Hin. apply remove_unless_words_elem.
      split; [| done]. apply (remove_punctuation_elem _ _ _ _ Hw).
      by rewrite punct_search_false.
  - intros s. rewrite elem_of_sorted_set.
    by rewrite (remove_punctuation_elem _ _ _ _ Hi), punct_search_false.
  - intros s. rewrite elem_of_sorted_set.
    rewrite (remove_punctuation_elem _ _ _ _ Hr), punct_search_false, Hrl.
    split; [| naive_solver].
    intros [[Hnil | ?] ?]; [by apply elem_of_nil in Hnil | done].
Qed.

Lemma term_freq_keeps_survivors_witness :
  (∀ s, is_Some (({[ lit "hello" := 1; [19990%N; 30028%N] := 1 ]}
                    : gmap str Z) !! s)
        ↔ JStr s ∈ (w_str <$> word_list sample_parsed)
          ∧ ¬ has_non_word sample_unicode s
          ∧ (1 < length s)%nat ∧ is_unwanted sample_unicode s = false)
  ∧ (∀ s, s ∈ [[]; lit "place"]
          ↔ JStr s ∈ (e_i18n <$> entity_list sample_parsed)
            ∧ ¬ has_non_word sample_unicode s)
  ∧ (∀ s, s ∈ [lit "capital"; lit "city"]
          ↔ (∃ e items, e ∈ entity_list sample_parsed
               ∧ py_iter (e_related e) = Ok items ∧ JStr s ∈ items)
            ∧ ¬ has_non_word sample_unicode s).
Proof.
  apply (term_freq_keeps_survivors sample_unicode
           (sample_host (Responded (JDict sample_answer)))
           (lit "a fab day") fresh {[ lit "meaningless" := [lit "ab"] ]}
           sample_parsed);
    vm_compute; reflexivity.
Defined.

(** X18. The label list and the related-concept list [term_freq] returns
    are free of duplicates and in increasing code-point order. *)
Theorem term_freq_labels_sorted (U : UnicodeData) (H : Host) (text : str)
    (w : world) (c : gmap str Z) (i18n related : list str) :
  (term_freq U H text w).1 = Ok (c, i18n, related) →
  NoDup i18n ∧ StronglySorted str_le i18n
  ∧ NoDup related ∧ StronglySorted str_le related.
Proof.
  intros (dm & _ & Ha)%term_freq_Ok.
  apply analyse_Ok in Ha
    as (pd & il & rl & words & il' & rl' & _ & _ & _ & _ & _ & _ & -> & ->).
  repeat split;
    first [apply NoDup_sorted_set | apply StronglySorted_sorted_set].
Qed.

Lemma term_freq_labels_sorted_witness :
  NoDup [[]; lit "place"] ∧ StronglySorted str_le [[]; lit "place"]
  ∧ NoDup [lit "capital"; lit "city"]
  ∧ StronglySorted str_le [lit "capital"; lit "city"].
Proof.
  apply (term_freq_labels_sorted sample_unicode
           (sample_host (Responded (JDict sample_answer)))
           (lit "a fab day") fresh
           {[ lit "hello" := 1; [19990%N; 30028%N] := 1 ]}).
  vm_compute. reflexivity.
Defined.

(** ** Saving unrecognized words again *)

Lemma sorted_set_ext xs ys :
  (∀ x, x ∈ xs ↔ x ∈ ys) → sorted_set xs = sorted_set ys.
Proof.
  intros Hext. apply sorted_set_unique;
    [apply NoDup_sorted_set | apply StronglySorted_sorted_set |].
  intros x. by rewrite elem_of_sorted_set.
Qed.

Lemma save_state_eq ws ws' v v' :
  LOADED_DICTIONARIES v = LOADED_DICTIONARIES v' →
  config_reads v = config_reads v' →
  (∀ x, x ∈ existing_words v ++ ws ↔ x ∈ existing_words v' ++ ws') →
  (_save_unrecognized_words ws v).2 = (_save_unrecognized_words ws' v').2.
Proof.
  intros Hc Hr Hext. unfold _save_unrecognized_words. cbn [snd].
  by rewrite Hc, Hr, (sorted_set_ext _ _ Hext).
Qed.

(** X17. Saving is idempotent and insensitive to order: saving the same
    words again changes nothing, two saves give the same state in either
    order, and the same state as one save of both lists. *)
Theorem save_idempotent_and_commutes (ws1 ws2 : list str) (w : world) :
  (_save_unrecognized_words ws1 (_save_unrecognized_words ws1 w).2).2
  = (_save_unrecognized_words ws1 w).2
  ∧ (_save_unrecognized_words ws2 (_save_unrecognized_words ws1 w).2).2
    = (_save_unrecognized_words ws1 (_save_unrecognized_words ws2 w).2).2
  ∧ (_save_unrecognized_words ws2 (_save_unrecognized_words ws1 w).2).2
    = (_save_unrecognized_words (ws1 ++ ws2) w).2.
Proof.
  split; [| split]; apply save_state_eq; try done; intros x;
    rewrite ?saved_words, ?elem_of_app, ?elem_of_sorted_set, ?elem_of_app;
    naive_solver.
Qed.

(** ** Dictionaries without their key, tokens with punctuation *)

(** X19. word_num counts the phrases that pass the punctuation filter, not
    the phrases of the response: when the phrase strings are [ps], a
    returning [sentiment] reports as word_num the number of those without a
    non-word character. *)
Theorem word_num_after_punctuation (U : UnicodeData) (H : Host) (text : str)
    (w : world) (dm dp dn : gmap str (list str)) (pd : parsed)
    (ps : list str) :
  dictionary H w (lit "meaningless") = Some dm →
  dictionary H w (lit "positive") = Some dp →
  dictionary H w (lit "negative") = Some dn →
  _parse_texsmart_response (_call_texsmart_api H (request_text dm text))
    = Ok pd →
  w_str <$> phrase_list pd = JStr <$> ps →
  ∃ rd, (sentiment U H text w).1 = Ok rd
    ∧ word_num rd
      = Some (Z.of_nat (length (filter (λ s, ¬ has_non_word U s) ps))).
Proof.
  intros Hm Hp Hn Hparse Hps. rewrite sentiment_result.
  unfold sentiment_value, phrase_tokens.
  rewrite Hm, Hp, Hn, Hparse. cbn [mbind result_bind].
  rewrite Hps, remove_punctuation_fmap. cbn [mbind result_bind].
  eexists. split; [done |]. done.
Qed.

Lemma word_num_after_punctuation_witness :
  ∃ rd, (sentiment sample_unicode (sample_host (Responded three_phrases))
                   (lit "a fab day") fresh).1 = Ok rd
    ∧ word_num rd
      = Some (Z.of_nat
                (length (filter (λ s, ¬ has_non_word sample_unicode s)
                                [lit "good"; lit "badtime"; lit "neutral"]))).
Proof.
  apply (word_num_after_punctuation sample_unicode
           (sample_host (Responded three_phrases)) (lit "a fab day") fresh
           {[ lit "meaningless" := [lit "ab"] ]}
           {[ lit "positive" := [lit "good"] ]}
           {[ lit "negative" := [lit "bad"] ]}
           {| word_list := [];
              phrase_list :=
                [ {| w_str := JStr (lit "good"); w_tag := JStr (lit "NN") |};
                  {| w_str := JStr (lit "badtime"); w_tag := JStr (lit "NN") |};
                  {| w_str := JStr (lit "neutral"); w_tag := JStr (lit "NN") |} ];
              entity_list := [] |});
    vm_compute; reflexivity.
Defined.

(** X20. Dictionaries that load but lack their "positive" and "negative"
    keys count as empty lists: nothing is positive or negative, and every
    token goes to the file of unrecognized words. *)
Theorem dictionaries_without_keys (U : UnicodeData) (H : Host) (text : str)
    (w : world) (dm dp dn : gmap str (list str)) (words : list str) :
  dictionary H w (lit "meaningless") = Some dm →
  dictionary H w (lit "positive") = Some dp →
  dictionary H w (lit "negative") = Some dn →
  dp !! lit "positive" = None →
  dn !! lit "negative" = None →
  phrase_tokens U (_call_texsmart_api H (request_text dm text)) = Ok words →
  (sentiment U H text w).1
  = Ok {| positive_num := 0; negative_num := 0;
          word_num := Some (Z.of_nat (length words)) |}
  ∧ unrecognized_words_yaml (sentiment U H text w).2
    = Some {[ lit "unrecognized" :=
                sorted_set (existing_words w ++ words) ]}.
Proof.
  intros Hm Hp Hn Hpk Hnk Htok.
  assert (entries "positive" dp = []) as Hpe by (unfold entries; by rewrite Hpk).
  assert (entries "negative" dn = []) as Hne by (unfold entries; by rewrite Hnk).
  assert (∀ l : list str, filter (counts_positive []) l = []) as Hfp.
  { induction l as [|x l IH]; [done |].
    rewrite filter_cons_False; [done | by intros ?%elem_of_nil]. }
  assert (∀ l : list str, filter (counts_negative [] []) l = []) as Hfn.
  { induction l as [|x l IH]; [done |].
    rewrite filter_cons_False; [done | by intros [_ ?%Exists_nil]]. }
  assert (∀ l : list str, filter (counts_unrecognized [] []) l = l) as Hfu.
  { induction l as [|x l IH]; [done |].
    rewrite filter_cons_True; [by rewrite IH |].
    split; [by intros ?%elem_of_nil | by intros ?%Exists_nil]. }
  split.
  - rewrite sentiment_result. unfold sentiment_value.
    rewrite Hm, Hp, Hn, Htok, Hpe, Hne. cbn [mbind result_bind].
    unfold report. rewrite classify_spec, Hfp, Hfn. done.
  - rewrite (sentiment_file U H text w dm dp dn words Hm Hp Hn Htok).
    rewrite Hpe, Hne, classify_spec, Hfu. cbn [snd unrecognized].
    do 2 f_equal. apply sorted_set_ext. intros x.
    by rewrite !elem_of_app, elem_of_sorted_set.
Qed.

Lemma dictionaries_without_keys_witness :
  (sentiment sample_unicode
     {| load_config := λ _, Some ∅;
        post := λ _, Responded three_phrases |}
     (lit "a fab day") fresh).1
  = Ok {| positive_num := 0; negative_num := 0;
          word_num :=
            Some (Z.of_nat
                    (length [lit "good"; lit "badtime"; lit "neutral"])) |}
  ∧ unrecognized_words_yaml
      (sentiment sample_unicode
         {| load_config := λ _, Some ∅;
            post := λ _, Responded three_phrases |}
         (lit "a fab day") fresh).2
    = Some {[ lit "unrecognized" :=
                sorted_set (existing_words fresh
                            ++ [lit "good"; lit "badtime"; lit "neutral"]) ]}.
Proof.
  apply (dictionaries_without_keys sample_unicode
           {| load_config := λ _, Some ∅;
              post := λ _, Responded three_phrases |}
           (lit "a fab day") fresh ∅ ∅ ∅);
    vm_compute; reflexivity.
Defined.
